(** * Mendi-Bot: the trick engine of [card_rl/env.py]

    A shallow embedding of [CardGameEnv] (a four-seat partnership
    trick-taking environment, teams (0,2) against (1,3)) and the proofs of
    its specification.

    Conventions of the embedding.
    - Python [int] card identifiers and counters are [Z]; [//] is [Z.div] and
      [%] is [Z.modulo] (both round towards minus infinity for the positive
      divisor 13, as Python does).  Seat numbers, list indices and lengths
      are [nat].
    - [self.hands] is a list of lists read with [!!] and written with
      [<[_:=_]>]; an index out of range raises [IndexError].
    - [self.tricks_won] and [self.tens_won] are dictionaries: [gmap nat Z];
      a missing key raises [KeyError].
    - The object is mutated in place and exceptions leave the mutations done
      so far: methods are computations [Env -> outcome A * Env], the state
      component being the object after the call, also when it raised.
    - [random.Random] is the standard library's generator: it is taken
      through the interface [Random] (seeding, [shuffle], [choice]) with the
      two facts the engine relies on.
    - The console is not part of the model: of [_print_current_trick] the
      model keeps the formatting of the cards, which can raise, and drops
      the line it prints; [render] and the driver scripts return what they
      print. *)

From Stdlib Require Import ZArith Lia Floats.PrimFloat.
From stdpp Require Import gmap list sorting strings pretty.

Local Open Scope Z_scope.

(** ** Card codec (env.py, lines 13-30) *)

Definition suit_of (card_id : Z) : Z := card_id `div` 13.

Definition rank_of (card_id : Z) : Z := card_id `mod` 13.

Definition encode_card (rank suit : Z) : Z := suit * 13 + rank.

Definition decode_card (card_id : Z) : Z * Z := (rank_of card_id, suit_of card_id).

Definition RANK_NAMES : list string :=
  ["2"; "3"; "4"; "5"; "6"; "7"; "8"; "9"; "10"; "J"; "Q"; "K"; "A"]%string.

Definition SUIT_NAMES : list string := ["C"; "D"; "H"; "S"]%string.

(** [l[i]]: a negative index counts from the end; [None] stands for the
    [IndexError] of an index out of range. *)
Definition py_index {A} (l : list A) (i : Z) : option A :=
  if decide (0 ≤ i) then l !! Z.to_nat i
  else if decide (- Z.of_nat (length l) ≤ i) then l !! Z.to_nat (Z.of_nat (length l) + i)
  else None.

Definition card_str (card_id : Z) : option string :=
  r ← py_index RANK_NAMES (rank_of card_id);
  s ← py_index SUIT_NAMES (suit_of card_id);
  Some (r +:+ s).

(** ** The Python built-ins the engine uses *)

(** [l.remove(x)]: drops the first occurrence of [x]; [None] stands for the
    [ValueError] raised when [x] is absent. *)
Fixpoint py_remove (x : Z) (l : list Z) : option (list Z) :=
  match l with
  | [] => None
  | y :: l' => if decide (y = x) then Some l' else cons y <$> py_remove x l'
  end.

(** [max(l, key=key)] keeps the first element whose key is maximal: the
    running best is replaced only by a strictly greater key. *)
Fixpoint max_from {A} (key : A → Z) (best : A) (l : list A) : A :=
  match l with
  | [] => best
  | x :: l' => max_from key (if key best <? key x then x else best) l'
  end.

Definition py_max {A} (key : A → Z) (l : list A) : option A :=
  match l with
  | [] => None
  | x :: l' => Some (max_from key x l')
  end.

(** [min(l, key=key)]: the first element whose key is minimal. *)
Fixpoint min_from {A} (key : A → Z) (best : A) (l : list A) : A :=
  match l with
  | [] => best
  | x :: l' => min_from key (if key x <? key best then x else best) l'
  end.

Definition py_min {A} (key : A → Z) (l : list A) : option A :=
  match l with
  | [] => None
  | x :: l' => Some (min_from key x l')
  end.

(** [sorted(l)] on integers. *)
Definition sorted (l : list Z) : list Z := merge_sort Z.le l.

(** [l[a:b]] for [0 <= a <= b]. *)
Definition slice (a b : nat) (l : list Z) : list Z := take (b - a) (drop a l).

(** [list(range(52))]. *)
Definition full_deck : list Z := seqZ 0 52.

(** ** The random generator

    [random.Random] as the engine sees it.  [rng_seed s] is the generator
    state after [Random(s)] or [rng.seed(s)] for an integer [s];
    [rng_shuffle] and [rng_choice] return their result with the generator
    state they leave.  [rng_choice] is only specified on non-empty lists
    (Python raises [IndexError] on an empty one; the engine guards every
    call). *)
Class Random (G : Type) := {
  rng_seed : Z → G;
  rng_shuffle : G → list Z → list Z * G;
  rng_choice : G → list Z → Z * G;
  rng_shuffle_perm : ∀ g l, (rng_shuffle g l).1 ≡ₚ l;
  rng_choice_elem : ∀ g l, l ≠ [] → (rng_choice g l).1 ∈ l
}.

(** ** Exceptions and the state-and-exception monad *)

Inductive exn : Set :=
  | EpisodeFinished   (* RuntimeError("Episode is done. Call reset().") *)
  | InvalidAction     (* ValueError("Invalid action: card not in agent's hand.") *)
  | ValueError        (* list.remove(x): x not in list; max() of an empty list *)
  | AssertionError
  | IndexError
  | KeyError.

Inductive outcome (A : Type) : Type :=
  | Ok (a : A)
  | Raise (e : exn).
Arguments Ok {A} a.
Arguments Raise {A} e.

Section Engine.
Context {G : Type} `{!Random G}.

Record TrickState : Type := mkTrick {
  leader : nat;
  plays : list (nat * Z)   (* (player_id, card_id), in play order *)
}.

Record CardGameEnv : Type := mkEnv {
  rng : G;
  hands : list (list Z);
  tricks_won : gmap nat Z;
  tens_won : gmap nat Z;
  current_trick : option TrickState;
  current_player : nat;
  done : bool;
  _dealt : bool;
  _rounds_played : Z
}.

Definition M (A : Type) : Type := CardGameEnv → outcome A * CardGameEnv.

Definition ret {A} (a : A) : M A := λ st, (Ok a, st).

Definition raise {A} (e : exn) : M A := λ st, (Raise e, st).

Definition bind {A B} (c : M A) (k : A → M B) : M B :=
  λ st, match c st with
        | (Ok a, st') => k a st'
        | (Raise e, st') => (Raise e, st')
        end.

Definition gets {A} (f : CardGameEnv → A) : M A := λ st, (Ok (f st), st).

Definition modify (f : CardGameEnv → CardGameEnv) : M unit := λ st, (Ok tt, f st).

(** [o] when it is [Some], the exception [e] otherwise. *)
Definition or_raise {A} (e : exn) (o : option A) : M A :=
  match o with
  | Some a => ret a
  | None => raise e
  end.

End Engine.

Arguments CardGameEnv G : clear implicits.
Arguments M G A : clear implicits.

Notation "'let*' x ':=' c 'in' k" := (bind c (λ x, k))
  (at level 10, x name, c at level 100, k at level 200).
Notation "'do' c 'then' k" := (bind c (λ _, k))
  (at level 10, c at level 100, k at level 200).

(** ** The environment (env.py, lines 33-207) *)

(** The dictionary returned by [_obs]. *)
Record Observation : Type := mkObs {
  obs_hand : list Z;
  obs_current_trick : list (nat * Z);
  obs_trick_leader : option nat;
  obs_tricks_won : gmap nat Z;
  obs_tens_won : gmap nat Z;
  obs_remaining_tricks : nat;
  obs_current_player : nat
}.

(** The tuple [(obs, reward, terminated, truncated, info)] returned by
    [step]; [info] is always the empty dictionary. *)
Record StepResult : Type := mkStep {
  res_obs : Observation;
  res_reward : float;
  res_terminated : bool;
  res_truncated : bool;
  res_info : gmap nat Z
}.

Section Operations.
Context {G : Type} `{!Random G}.
Abbreviation Env := (CardGameEnv G).

(** Field assignments. *)
Definition with_rng (g : G) (st : Env) : Env :=
  mkEnv g (hands st) (tricks_won st) (tens_won st) (current_trick st)
        (current_player st) (done st) (_dealt st) (_rounds_played st).
Definition with_hands (hs : list (list Z)) (st : Env) : Env :=
  mkEnv (rng st) hs (tricks_won st) (tens_won st) (current_trick st)
        (current_player st) (done st) (_dealt st) (_rounds_played st).
Definition with_tricks_won (m : gmap nat Z) (st : Env) : Env :=
  mkEnv (rng st) (hands st) m (tens_won st) (current_trick st)
        (current_player st) (done st) (_dealt st) (_rounds_played st).
Definition with_tens_won (m : gmap nat Z) (st : Env) : Env :=
  mkEnv (rng st) (hands st) (tricks_won st) m (current_trick st)
        (current_player st) (done st) (_dealt st) (_rounds_played st).
Definition with_current_trick (t : option TrickState) (st : Env) : Env :=
  mkEnv (rng st) (hands st) (tricks_won st) (tens_won st) t
        (current_player st) (done st) (_dealt st) (_rounds_played st).
Definition with_current_player (p : nat) (st : Env) : Env :=
  mkEnv (rng st) (hands st) (tricks_won st) (tens_won st) (current_trick st)
        p (done st) (_dealt st) (_rounds_played st).
Definition with_done (d : bool) (st : Env) : Env :=
  mkEnv (rng st) (hands st) (tricks_won st) (tens_won st) (current_trick st)
        (current_player st) d (_dealt st) (_rounds_played st).
Definition with_dealt (d : bool) (st : Env) : Env :=
  mkEnv (rng st) (hands st) (tricks_won st) (tens_won st) (current_trick st)
        (current_player st) (done st) d (_rounds_played st).
Definition with_rounds_played (n : Z) (st : Env) : Env :=
  mkEnv (rng st) (hands st) (tricks_won st) (tens_won st) (current_trick st)
        (current_player st) (done st) (_dealt st) n.

(** [self.hands[pid]] *)
Definition hand (pid : nat) : M G (list Z) :=
  let* hs := gets hands in or_raise IndexError (hs !! pid).

(** In-place update of the list [self.hands[pid]]. *)
Definition set_hand (pid : nat) (h : list Z) : M G unit :=
  modify (λ st, with_hands (<[pid:=h]> (hands st)) st).

(** [self.current_trick], which must not be [None]: the [assert] of
    [_play_card] and [_end_trick_and_score], and the reads that follow
    it. *)
Definition trick : M G TrickState :=
  let* t := gets current_trick in or_raise AssertionError t.

(** In-place update of the list [self.current_trick.plays]. *)
Definition set_plays (ps : list (nat * Z)) : M G unit :=
  let* t := trick in modify (with_current_trick (Some (mkTrick (leader t) ps))).

(** [TrickState(leader=0, plays=[])] *)
Definition fresh_trick : TrickState := mkTrick 0 [].

(** [{0: 0, 1: 0}] *)
Definition zero_counters : gmap nat Z := <[0%nat:=0]> (<[1%nat:=0]> ∅).

(** [CardGameEnv(seed)].  With [seed=None] the generator is seeded from the
    operating system: [entropy] is the state it then starts in. *)
Definition __init__ (seed : option Z) (entropy : G) : Env :=
  mkEnv (match seed with Some s => rng_seed s | None => entropy end)
        [[]; []; []; []] zero_counters zero_counters None 0 false false 0.

Definition _obs : M G Observation :=
  let* h0 := hand 0 in
  let remaining_tricks := length h0 in
  let* t := gets current_trick in
  let* tw := gets tricks_won in
  let* tn := gets tens_won in
  let* cp := gets current_player in
  ret (mkObs (sorted h0)
             (match t with Some t => plays t | None => [] end)
             (leader <$> t)
             tw tn remaining_tricks cp).

Definition reset (seed : option Z) : M G Observation :=
  do (match seed with
      | Some s => modify (with_rng (rng_seed s))
      | None => ret tt
      end) then
  let* g := gets rng in
  let shuffled := rng_shuffle g full_deck in
  do modify (with_rng shuffled.2) then
  let deck := shuffled.1 in
  do modify (with_hands
       ((λ i, sorted (slice (i * 13) ((i + 1) * 13) deck)) <$> seq 0 4)) then
  do modify (with_tricks_won zero_counters) then
  do modify (with_tens_won zero_counters) then
  do modify (with_current_player 0) then
  do modify (with_current_trick (Some fresh_trick)) then
  do modify (with_done false) then
  do modify (with_dealt true) then
  do modify (with_rounds_played 0) then
  _obs.

(** [_print_current_trick] (lines 165-170): the cards of the trick are
    formatted, which raises [IndexError] on an identifier with no suit
    name; the line itself goes to the console. *)
Definition _print_current_trick : M G unit :=
  let* t := gets current_trick in
  match t with
  | None => ret tt
  | Some t =>
      if decide (plays t = []) then ret tt
      else
        let* trick_cards :=
          or_raise IndexError (mapM (λ pc : nat * Z, card_str pc.2) (plays t)) in
        ret tt
  end.

(** [_play_card] (lines 135-163).  The result, which the Python method does
    not return, records whether the revert-and-replace branch of lines
    153-160 ran. *)
Definition _play_card (pid : nat) (card : Z) : M G bool :=
  let* h := hand pid in
  let* h' := or_raise ValueError (py_remove card h) in
  do set_hand pid h' then
  let* t := trick in
  do set_plays (plays t ++ [(pid, card)]) then
  do _print_current_trick then
  let* t := trick in
  let* replaced :=
    if decide (1 < length (plays t))%nat then
      let* first := or_raise IndexError (plays t !! 0%nat) in
      let lead_suit := suit_of first.2 in
      if decide (suit_of card ≠ lead_suit) then
        let* h := hand pid in
        let led_suit_cards := filter (λ c, suit_of c = lead_suit) h in
        if decide (led_suit_cards ≠ []) then
          do set_plays (removelast (plays t)) then
          let* h := hand pid in
          do set_hand pid (h ++ [card]) then
          let* follow_card := or_raise ValueError (py_min rank_of led_suit_cards) in
          let* h := hand pid in
          let* h' := or_raise ValueError (py_remove follow_card h) in
          do set_hand pid h' then
          let* t := trick in
          do set_plays (plays t ++ [(pid, follow_card)]) then
          do _print_current_trick then
          ret true
        else ret false
      else ret false
    else ret false in
  let* cp := gets current_player in
  do modify (with_current_player ((cp + 1) `mod` 4)%nat) then
  ret replaced.

Definition _is_trick_complete : M G bool :=
  let* t := gets current_trick in
  ret (match t with
       | Some t => bool_decide (length (plays t) = 4%nat)
       | None => false
       end).

(** [compute_reward], the default policy (lines 202-207). *)
Definition compute_reward (winner_team : nat) : float :=
  if decide (winner_team = 0%nat) then 1.0%float else (-1.0)%float.

(** [0 if winner_pid in (0, 2) else 1] *)
Definition team_of (pid : nat) : nat :=
  if bool_decide (pid = 0 ∨ pid = 2)%nat then 0%nat else 1%nat.

(** [sum(1 for _, cid in plays if rank_of(cid) == 8)] *)
Definition tens_in (ps : list (nat * Z)) : Z :=
  Z.of_nat (length (filter (λ pc : nat * Z, rank_of pc.2 = 8) ps)).

(** [d[k] += n] *)
Definition dict_add (k : nat) (n : Z) (d : gmap nat Z) : option (gmap nat Z) :=
  v ← d !! k; Some (<[k:=v + n]> d).

Definition _end_trick_and_score : M G float :=
  let* t := trick in
  let* winner := or_raise ValueError (py_max (λ pc : nat * Z, rank_of pc.2) (plays t)) in
  let winner_pid := winner.1 in
  let winner_team := team_of winner_pid in
  let* tw := gets tricks_won in
  let* tw' := or_raise KeyError (dict_add winner_team 1 tw) in
  do modify (with_tricks_won tw') then
  let tens_in_trick := tens_in (plays t) in
  do (if decide (tens_in_trick ≠ 0) then
        let* tn := gets tens_won in
        let* tn' := or_raise KeyError (dict_add winner_team tens_in_trick tn) in
        modify (with_tens_won tn')
      else ret tt) then
  let reward := compute_reward winner_team in
  let* n := gets _rounds_played in
  do modify (with_rounds_played (n + 1)) then
  do modify (with_current_player 0) then
  do modify (with_current_trick (Some fresh_trick)) then
  let* h0 := hand 0 in
  do (if decide (length h0 = 0%nat) then modify (with_done true) else ret tt) then
  ret reward.

(** One iteration of the loop of lines 96-101: the seat's card is drawn
    among its cards of the lead suit when it has one, among its whole hand
    otherwise.  The result lists the flag of the [_play_card] call, if one
    was made. *)
Definition auto_play (lead_suit : Z) (pid : nat) : M G (list bool) :=
  let* h := hand pid in
  if decide (h = []) then ret []
  else
    let same_suit_cards := filter (λ c, suit_of c = lead_suit) h in
    let* g := gets rng in
    let drawn :=
      if decide (same_suit_cards ≠ []) then rng_choice g same_suit_cards
      else rng_choice g h in
    do modify (with_rng drawn.2) then
    let* r := _play_card pid drawn.1 in
    ret [r].

Fixpoint for_each {A B} (l : list A) (body : A → M G (list B)) : M G (list B) :=
  match l with
  | [] => ret []
  | x :: l' =>
      let* r := body x in
      let* rs := for_each l' body in
      ret (r ++ rs)
  end.

(** Lines 86-101 of [step]: the four plays of a trick.  The result lists,
    in call order, the flags of the [_play_card] calls. *)
Definition step_plays (action : Z) : M G (list bool) :=
  let* t := gets current_trick in
  do (if bool_decide (t = None ∨ (length ∘ plays <$> t) = Some 4%nat) then
        do modify (with_current_trick (Some fresh_trick)) then
        modify (with_current_player 0)
      else ret tt) then
  let* r0 := _play_card 0 action in
  let* t := trick in
  let* first := or_raise IndexError (plays t !! 0%nat) in
  let lead_suit := suit_of first.2 in
  let* rs := for_each [1; 2; 3]%nat (auto_play lead_suit) in
  ret (r0 :: rs).

Definition step (action : Z) : M G StepResult :=
  let* d := gets done in
  if d then raise EpisodeFinished
  else
    let* h0 := hand 0 in
    if decide (action ∉ h0) then raise InvalidAction
    else
      do step_plays action then
      let* complete := _is_trick_complete in
      let* reward := (if complete then _end_trick_and_score else ret 0.0%float) in
      let* obs := _obs in
      let* terminated := gets done in
      ret (mkStep obs reward terminated false ∅).

(** A caller issuing [step] calls in order, up to the first exception. *)
Fixpoint run (actions : list Z) : M G (list StepResult) :=
  match actions with
  | [] => ret []
  | a :: rest =>
      let* r := step a in
      let* rs := run rest in
      ret (r :: rs)
  end.

(** The states an environment object can be in: constructed, then driven
    through [reset] and [step] calls, whatever their outcome. *)
Inductive reachable : Env → Prop :=
  | reach_init seed entropy : reachable (__init__ seed entropy)
  | reach_reset seed st : reachable st → reachable (reset seed st).2
  | reach_step action st : reachable st → reachable (step action st).2.

End Operations.

(** ** Rendering (env.py, lines 113-120) *)

(** [sep.join(l)] *)
Fixpoint py_join (sep : string) (l : list string) : string :=
  match l with
  | [] => ""
  | [x] => x
  | x :: l' => x +:+ sep +:+ py_join sep l'
  end.

(** [str(n)] for an integer. *)
Definition py_str (n : Z) : string := pretty n.

(** [str(l)] for a list of integers. *)
Definition py_str_list (l : list Z) : string :=
  "[" +:+ py_join ", " (py_str <$> l) +:+ "]".

(** The line [print(a1, ..., an)] writes, the arguments being strings
    already. *)
Definition print_line (args : list string) : string := py_join " " args.

Section Rendering.
Context {G : Type} `{!Random G}.

(** [render].  The result, which the Python method prints line by line
    rather than returns, is the list of the lines. *)
Definition render : M G (list string) :=
  let* hs := gets hands in
  let sizes := print_line
    ["Hands sizes:"; py_str_list ((λ h, Z.of_nat (length h)) <$> hs)] in
  let* tw := gets tricks_won in
  let* tw0 := or_raise KeyError (tw !! 0%nat) in
  let* tw1 := or_raise KeyError (tw !! 1%nat) in
  let tricks := print_line
    ["Tricks won: TeamA(0,2)="; py_str tw0; " TeamB(1,3)="; py_str tw1] in
  let* tn := gets tens_won in
  let* tn0 := or_raise KeyError (tn !! 0%nat) in
  let* tn1 := or_raise KeyError (tn !! 1%nat) in
  let tens := print_line
    ["10s won:    TeamA(0,2)="; py_str tn0; " TeamB(1,3)="; py_str tn1] in
  let* t := gets current_trick in
  let* current :=
    match t with
    | None => ret []
    | Some t =>
        let* plays_str :=
          or_raise IndexError
            (mapM (λ pc : nat * Z,
                     c ← card_str pc.2;
                     Some ("P" +:+ py_str (Z.of_nat pc.1) +:+ ":" +:+ c))
                  (plays t)) in
        ret [print_line
               ["Current trick (leader P" +:+ py_str (Z.of_nat (leader t)) +:+ "):";
                py_join ", " plays_str]]
    end in
  let* h0 := hand 0 in
  let* cards := or_raise IndexError (mapM card_str h0) in
  ret ([sizes; tricks; tens] ++ current
       ++ [print_line ["Agent hand:"; py_join " " cards]]).

End Rendering.

(** ** The driver scripts (run_highest.py, run_random.py)

    The [while not done] loops take a bound on the number of iterations;
    [None] is the result of a loop that the bound stopped. *)

(** [float(n)] for an integer. *)
Fixpoint float_of_positive (p : positive) : float :=
  match p with
  | xH => 1.0
  | xO p => 2.0 * float_of_positive p
  | xI p => 2.0 * float_of_positive p + 1.0
  end%float.

Definition float_of_Z (n : Z) : float :=
  match n with
  | Z0 => 0.0%float
  | Zpos p => float_of_positive p
  | Zneg p => (- float_of_positive p)%float
  end.

(** What the scripts print at the end: the total reward, the final
    observation's [tricks_won] and [tens_won] and, for run_random.py, the
    lines of [render]. *)
Record Report : Type := mkReport {
  rep_render : list string;
  rep_total_reward : float;
  rep_tricks_won : gmap nat Z;
  rep_tens_won : gmap nat Z
}.

Section Drivers.
Context {G : Type} `{!Random G}.

(** The loop of run_highest.py (lines 8-14): the agent plays
    [max(hand, key=rank_of)]. *)
Fixpoint highest_loop (fuel : nat) (obs : Observation) (done : bool)
    (total_reward : float) : M G (option (Observation * float)) :=
  if done then ret (Some (obs, total_reward))
  else
    match fuel with
    | O => ret None
    | S fuel =>
        let hand := obs_hand obs in
        let* action := or_raise ValueError (py_max rank_of hand) in
        let* r := step action in
        let total_reward := (total_reward + res_reward r)%float in
        let done := res_terminated r || res_truncated r in
        highest_loop fuel (res_obs r) done total_reward
    end.

(** [main] of run_highest.py: [CardGameEnv()] is seeded by the operating
    system, [entropy] being the generator state it starts in. *)
Definition run_highest_main (fuel : nat) (entropy : G)
    : outcome (option Report) * CardGameEnv G :=
  (let* obs := reset None in
   let* r := highest_loop fuel obs false 0.0%float in
   ret ((λ r : Observation * float,
           mkReport [] r.2 (obs_tricks_won r.1) (obs_tens_won r.1)) <$> r))
    (__init__ None entropy).

(** The loop of run_random.py (lines 9-15): the agent plays
    [random.choice(hand)], drawn from the module's own generator [grng]
    ([IndexError] on an empty hand). *)
Fixpoint random_loop (fuel : nat) (grng : G) (obs : Observation) (done : bool)
    (total_reward : float) : M G (option (G * Observation * float)) :=
  if done then ret (Some (grng, obs, total_reward))
  else
    match fuel with
    | O => ret None
    | S fuel =>
        let hand := obs_hand obs in
        if decide (hand = []) then raise IndexError
        else
          let drawn := rng_choice grng hand in
          let action := drawn.1 in
          let* r := step action in
          let total_reward := (total_reward + res_reward r)%float in
          let done := res_terminated r || res_truncated r in
          random_loop fuel drawn.2 (res_obs r) done total_reward
    end.

(** [main] of run_random.py: [CardGameEnv(seed=123)] (a seed is given, so
    the constructor's entropy argument plays no part), the loop, then
    [env.render()]. *)
Definition run_random_main (fuel : nat) (grng : G)
    : outcome (option Report) * CardGameEnv G :=
  (let* obs := reset None in
   let* r := random_loop fuel grng obs false 0.0%float in
   match r with
   | None => ret None
   | Some r =>
       let* lines := render in
       ret (Some (mkReport lines r.2 (obs_tricks_won r.1.2) (obs_tens_won r.1.2)))
   end)
    (__init__ (Some 123) grng).

End Drivers.

(** ** The vocabulary of the specification *)

(** A successful computation. *)
Definition is_Ok {A} (o : outcome A) : Prop := ∃ a, o = Ok a.

(** The identifiers of the 52 cards. *)
Definition valid_card (c : Z) : Prop := 0 ≤ c < 52.

(** The cards of the plays can all be formatted. *)
Definition printable (ps : list (nat * Z)) : Prop :=
  is_Some (mapM (λ pc : nat * Z, card_str pc.2) ps).

(** The plays of a trick led by the agent. *)
Definition trick_of (a c1 c2 c3 : Z) : list (nat * Z) :=
  [(0, a); (1, c1); (2, c2); (3, c3)]%nat.

Section Vocabulary.
Context {G : Type} `{!Random G}.
Abbreviation Env := (CardGameEnv G).

(** Seat [pid] holds card [c]. *)
Definition holds (st : Env) (pid : nat) (c : Z) : Prop :=
  ∃ h, hands st !! pid = Some h ∧ c ∈ h.

(** The state holds a trick to score: four plays, counters for both teams
    and a hand for seat 0. *)
Definition scorable (st : Env) (t : TrickState) : Prop :=
  current_trick st = Some t
  ∧ length (plays t) = 4%nat
  ∧ is_Some (hands st !! 0%nat)
  ∧ ∀ team, (team < 2)%nat →
      is_Some (tricks_won st !! team) ∧ is_Some (tens_won st !! team).

(** The card the loop body of [step] draws for a seat holding [h], with the
    generator it leaves. *)
Definition auto_draw (g : G) (lead_suit : Z) (h : list Z) : Z * G :=
  if decide (filter (λ c, suit_of c = lead_suit) h ≠ []) then
    rng_choice g (filter (λ c, suit_of c = lead_suit) h)
  else rng_choice g h.

(** The state [reset] leaves: every field is assigned. *)
Definition reset_state (seed : option Z) (st : Env) : Env :=
  let g := match seed with Some s => rng_seed s | None => rng st end in
  let shuffled := rng_shuffle g full_deck in
  mkEnv shuffled.2
        [sorted (take 13 shuffled.1);
         sorted (take 13 (drop 13 shuffled.1));
         sorted (take 13 (drop 26 shuffled.1));
         sorted (take 13 (drop 39 shuffled.1))]
        zero_counters zero_counters (Some fresh_trick) 0 false true 0.

(** What a call [step a] does from a state [st] of the invariant below: its
    outcome and the state it leaves. *)
Inductive step_case (a : Z) (st : Env) : outcome StepResult → Env → Prop :=
  | step_finished :
      done st = true →
      step_case a st (Raise EpisodeFinished) st
  | step_invalid h0 :
      done st = false →
      hands st !! 0%nat = Some h0 →
      a ∉ h0 →
      step_case a st (Raise InvalidAction) st
  | step_trick h0 h1 h2 h3 h0' h1' h2' h3' c1 c2 c3 g' cp' w v u :
      done st = false →
      hands st = [h0; h1; h2; h3] →
      py_remove a h0 = Some h0' →
      py_remove c1 h1 = Some h1' →
      py_remove c2 h2 = Some h2' →
      py_remove c3 h3 = Some h3' →
      (suit_of c1 = suit_of a ∨ filter (λ x, suit_of x = suit_of a) h1 = []) →
      (suit_of c2 = suit_of a ∨ filter (λ x, suit_of x = suit_of a) h2 = []) →
      (suit_of c3 = suit_of a ∨ filter (λ x, suit_of x = suit_of a) h3 = []) →
      step_plays a st =
        (Ok [false; false; false; false],
         mkEnv g' [h0'; h1'; h2'; h3'] (tricks_won st) (tens_won st)
               (Some (mkTrick 0 (trick_of a c1 c2 c3)))
               cp' (done st) (_dealt st) (_rounds_played st)) →
      py_max (λ pc : nat * Z, rank_of pc.2) (trick_of a c1 c2 c3) = Some w →
      tricks_won st !! team_of w.1 = Some v →
      tens_won st !! team_of w.1 = Some u →
      let tw' := <[team_of w.1:=v + 1]> (tricks_won st) in
      let tn' := <[team_of w.1:=u + tens_in (trick_of a c1 c2 c3)]> (tens_won st) in
      let d' := if decide (length h0' = 0%nat) then true else false in
      step_case a st
        (Ok (mkStep (mkObs (sorted h0') [] (Some 0%nat) tw' tn' (length h0') 0)
                    (compute_reward (team_of w.1)) d' false ∅))
        (mkEnv g' [h0'; h1'; h2'; h3'] tw' tn' (Some fresh_trick) 0 d'
               (_dealt st) (_rounds_played st + 1)).

(** The invariant of reachable states: four hands of equal size holding
    card identifiers, no trick in progress between calls, counters for both
    teams that add up to the rounds played, and [done] set exactly when the
    cards dealt to seat 0 are all played. *)
Record Inv (st : Env) : Prop := {
  inv_hands : ∃ h0 h1 h2 h3,
    hands st = [h0; h1; h2; h3]
    ∧ length h1 = length h0 ∧ length h2 = length h0 ∧ length h3 = length h0;
  inv_cards : Forall (Forall valid_card) (hands st);
  inv_trick : current_trick st = None ∨ current_trick st = Some fresh_trick;
  inv_tricks : ∃ a b,
    tricks_won st !! 0%nat = Some a ∧ tricks_won st !! 1%nat = Some b
    ∧ 0 ≤ a ∧ 0 ≤ b ∧ a + b = _rounds_played st;
  inv_tens : ∃ a b,
    tens_won st !! 0%nat = Some a ∧ tens_won st !! 1%nat = Some b
    ∧ 0 ≤ a ∧ 0 ≤ b;
  inv_done : done st = true ↔ _dealt st = true ∧ hands st !! 0%nat = Some [];
  inv_undealt : _dealt st = false → hands st !! 0%nat = Some [];
  inv_rounds : _dealt st = true →
    ∃ h0, hands st !! 0%nat = Some h0
          ∧ _rounds_played st + Z.of_nat (length h0) = 13
}.

End Vocabulary.

(** The number of tens (rank value 8) among the cards of the hands. *)
Definition tens_held (hs : list (list Z)) : Z :=
  Z.of_nat (length (filter (λ c, rank_of c = 8) (concat hs))).

(** What reachable states keep about the cards: no card is held twice, each
    hand is in ascending order, and after a deal the tens captured and the
    tens still held are the four tens of the deck. *)
Record CardsInv {G : Type} (st : CardGameEnv G) : Prop := {
  cards_nodup : NoDup (concat (hands st));
  cards_sorted : Forall (StronglySorted Z.lt) (hands st);
  cards_tens : _dealt st = true →
    ∃ a b, tens_won st !! 0%nat = Some a ∧ tens_won st !! 1%nat = Some b
           ∧ a + b + tens_held (hands st) = 4
}.

(** What the loops of the driver scripts keep between two iterations: the
    state is one of a running episode, [obs] is its observation and
    [total_reward] the difference of the two [tricks_won] counters. *)
Definition in_episode {G : Type} `{!Random G} (st : CardGameEnv G)
    (obs : Observation) (total_reward : float) : Prop :=
  Inv st ∧ CardsInv st ∧ _dealt st = true
  ∧ current_trick st = Some fresh_trick
  ∧ hands st !! 0%nat = Some (obs_hand obs)
  ∧ obs_tricks_won obs = tricks_won st
  ∧ obs_tens_won obs = tens_won st
  ∧ ∃ x y, tricks_won st !! 0%nat = Some x ∧ tricks_won st !! 1%nat = Some y
           ∧ total_reward = float_of_Z (x - y).

(** ** A reference generator

    A linear congruential generator with a shuffle by random insertion: an
    executable instance of [Random], on which the engine can be run on
    concrete seeds.  (CPython's Mersenne Twister is another instance; the
    theorems below hold for every instance.) *)
Module RefRng.

Definition next (g : Z) : Z := (g * 1103515245 + 12345) `mod` 2147483648.

Definition randbelow (g : Z) (n : nat) : nat :=
  Z.to_nat ((g `div` 65536) `mod` Z.of_nat n).

Definition insert_at (p : nat) (x : Z) (l : list Z) : list Z :=
  take p l ++ x :: drop p l.

Fixpoint shuffle (g : Z) (l : list Z) : list Z * Z :=
  match l with
  | [] => ([], g)
  | x :: l' =>
      let r := shuffle g l' in
      (insert_at (randbelow r.2 (S (length r.1))) x r.1, next r.2)
  end.

Definition choice (g : Z) (l : list Z) : Z * Z :=
  (default 0 (l !! randbelow g (length l)), next g).

Definition seed (s : Z) : Z := next (Z.abs s).

End RefRng.

#[export] Instance RefRng_Random : Random Z.
Proof.
  refine {| rng_seed := RefRng.seed;
            rng_shuffle := RefRng.shuffle;
            rng_choice := RefRng.choice |}.
  - intros g l. induction l as [|x l IH]; simpl; [done|].
    unfold RefRng.insert_at.
    by rewrite <- Permutation_middle, take_drop, IH.
  - intros g l Hne. unfold RefRng.choice, RefRng.randbelow. simpl.
    assert (0 < Z.of_nat (length l)) by (destruct l; simpl; [done|lia]).
    pose proof (Z.mod_pos_bound (g `div` 65536) (Z.of_nat (length l))).
    destruct (lookup_lt_is_Some_2 l
      (Z.to_nat ((g `div` 65536) `mod` Z.of_nat (length l)))) as [c Hc]; [lia|].
    rewrite Hc. simpl. by eapply list_elem_of_lookup_2.
Defined.

(** Concrete states on which the theorems are run: an episode dealt from
    seed 7 and played to its end, a trick that the rule enforcer corrects,
    and a trick with a tie for the highest rank. *)

(** The state after [CardGameEnv(seed=7)] and [reset()]. *)
Definition demo_start : CardGameEnv Z := (reset None (__init__ (Some 7) 0)).2.

(** The agent plays its highest remaining rank in each of the 13 tricks. *)
Definition demo_actions : list Z := [38; 11; 50; 36; 34; 47; 32; 18; 31; 4; 3; 1; 13].

(** Seat 0 led the 2 of clubs; seat 1 holds two clubs and a diamond. *)
Definition demo_follow : CardGameEnv Z :=
  mkEnv 1 [[4]; [14; 1; 5]; [20]; [30]] zero_counters zero_counters
        (Some (mkTrick 0 [(0%nat, 0)])) 1 false true 0.

(** The same state with no current trick. *)
Definition demo_no_trick : CardGameEnv Z :=
  mkEnv 1 [[4]; [14; 1; 5]; [20]; [30]] zero_counters zero_counters
        None 1 false true 0.

(** The state of an instance before its first [reset]. *)
Definition demo_new : CardGameEnv Z := __init__ (Some 7) 0.

(** A full trick: a 7, two tens and a 5. *)
Definition demo_trick : TrickState :=
  mkTrick 0 [(0%nat, 5); (1%nat, 21); (2%nat, 47); (3%nat, 3)].

Definition demo_scoring : CardGameEnv Z :=
  mkEnv 1 [[4]; [1]; [20]; [30]] zero_counters zero_counters
        (Some demo_trick) 0 false true 0.

(** * Proofs *)

(** ** The built-ins *)

Lemma py_remove_perm x l l' : py_remove x l = Some l' → l ≡ₚ x :: l'.
Proof.
  revert l'. induction l as [|y l IH]; intros l' Hr; simpl in Hr; [done|].
  destruct (decide (y = x)) as [->|Hne].
  - by injection Hr as ->.
  - destruct (py_remove x l) as [l''|] eqn:E; simplify_eq/=.
    rewrite (IH l'' eq_refl). apply Permutation_swap.
Qed.

Lemma py_remove_is_Some x l : x ∈ l → is_Some (py_remove x l).
Proof.
  induction l as [|y l IH]; intros Hin; simpl.
  - by apply elem_of_nil in Hin.
  - destruct (decide (y = x)); [eauto|].
    apply elem_of_cons in Hin as [->|Hin]; [done|].
    destruct (IH Hin) as [l' ->]. eauto.
Qed.

Lemma py_remove_elem x l l' : py_remove x l = Some l' → x ∈ l.
Proof. intros Hr. rewrite (py_remove_perm _ _ _ Hr). by left. Qed.

Lemma py_remove_length x l l' : py_remove x l = Some l' → length l = S (length l').
Proof. intros Hr. by rewrite (py_remove_perm _ _ _ Hr). Qed.

Lemma py_remove_subseteq x l l' : py_remove x l = Some l' → l' ⊆ l.
Proof. intros Hr y Hy. rewrite (py_remove_perm _ _ _ Hr). by right. Qed.

Lemma py_remove_app_l x l l' k :
  py_remove x l = Some l' → py_remove x (l ++ k) = Some (l' ++ k).
Proof.
  revert l'. induction l as [|y l IH]; intros l' Hr; simpl in *; [done|].
  destruct (decide (y = x)); [by injection Hr as <-|].
  destruct (py_remove x l) as [l''|]; simplify_eq/=.
  by rewrite (IH l'' eq_refl).
Qed.

(** [max_from] returns the first element of maximal key. *)
Lemma max_from_spec {A} (key : A → Z) b l :
  ∃ i : nat,
    (b :: l) !! i = Some (max_from key b l)
    ∧ (∀ x, x ∈ b :: l → key x ≤ key (max_from key b l))
    ∧ (∀ (j : nat) y, (j < i)%nat → (b :: l) !! j = Some y →
         key y < key (max_from key b l)).
Proof.
  revert b. induction l as [|x l IH]; intros b; simpl.
  - exists 0%nat. split_and!; [done| |intros; lia].
    intros y Hy. apply list_elem_of_singleton in Hy as ->. lia.
  - set (b' := if key b <? key x then x else b).
    assert (Hb : key b ≤ key b' ∧ key x ≤ key b'
                 ∧ (b' = b ∨ (b' = x ∧ key b < key x))).
    { unfold b'. destruct (Z.ltb_spec (key b) (key x)); split_and!; auto; lia. }
    destruct Hb as (Hbb & Hxb & Hcase).
    destruct (IH b') as (i & Hi & Hmax & Hfirst).
    set (m := max_from key b' l) in *.
    assert (Hb'm : key b' ≤ key m) by (apply Hmax; by left).
    destruct i as [|i].
    + simpl in Hi. injection Hi as Hi.
      destruct Hcase as [Heq|[Heq Hlt]].
      * exists 0%nat. split_and!.
        -- simpl. congruence.
        -- intros y Hy. apply elem_of_cons in Hy as [->|Hy]; [lia|].
           apply elem_of_cons in Hy as [->|Hy]; [lia|]. apply Hmax. by right.
        -- intros; lia.
      * exists 1%nat. split_and!.
        -- simpl. congruence.
        -- intros y Hy. apply elem_of_cons in Hy as [->|Hy]; [lia|].
           apply elem_of_cons in Hy as [->|Hy]; [lia|]. apply Hmax. by right.
        -- intros j y Hj Hy. assert (j = 0%nat) as -> by lia.
           simpl in Hy. injection Hy as <-. rewrite <- Hi, Heq. lia.
    + exists (S (S i)). split_and!.
      * done.
      * intros y Hy. apply elem_of_cons in Hy as [->|Hy]; [lia|].
        apply elem_of_cons in Hy as [->|Hy]; [lia|]. apply Hmax. by right.
      * intros j y Hj Hy.
        assert (Hlt : key b' < key m) by (apply (Hfirst 0%nat); [lia|done]).
        destruct j as [|[|j]]; simpl in Hy.
        -- injection Hy as <-. lia.
        -- injection Hy as <-. lia.
        -- apply (Hfirst (S j)); [lia|done].
Qed.

Lemma min_from_elem {A} (key : A → Z) b l : min_from key b l ∈ b :: l.
Proof.
  revert b. induction l as [|x l IH]; intros b; simpl; [by left|].
  specialize (IH (if key x <? key b then x else b)).
  apply elem_of_cons in IH as [->|IH].
  - destruct (key x <? key b); [right; by left|by left].
  - right. by right.
Qed.

Lemma min_from_le {A} (key : A → Z) b l x :
  x ∈ b :: l → key (min_from key b l) ≤ key x.
Proof.
  revert b x. induction l as [|y l IH]; intros b x Hx; simpl.
  - apply list_elem_of_singleton in Hx as ->. lia.
  - set (b' := if key y <? key b then y else b).
    assert (key b' ≤ key b ∧ key b' ≤ key y) as [??].
    { unfold b'. destruct (Z.ltb_spec (key y) (key b)); lia. }
    assert (key (min_from key b' l) ≤ key b') by (apply IH; by left).
    apply elem_of_cons in Hx as [->|Hx]; [lia|].
    apply elem_of_cons in Hx as [->|Hx]; [lia|].
    apply IH. by right.
Qed.

Lemma py_min_elem {A} (key : A → Z) l x : py_min key l = Some x → x ∈ l.
Proof. destruct l; intros [= <-]. apply min_from_elem. Qed.

Lemma py_min_le {A} (key : A → Z) l x y :
  py_min key l = Some x → y ∈ l → key x ≤ key y.
Proof. destruct l; intros [= <-]. apply min_from_le. Qed.

Lemma py_min_is_Some {A} (key : A → Z) l : l ≠ [] → is_Some (py_min key l).
Proof. destruct l; [done|eauto]. Qed.

Lemma sorted_perm l : sorted l ≡ₚ l.
Proof. apply merge_sort_Permutation. Qed.

Lemma sorted_Sorted l : StronglySorted Z.le (sorted l).
Proof. apply StronglySorted_merge_sort; apply _. Qed.

Lemma StronglySorted_le_lt (l : list Z) :
  NoDup l → StronglySorted Z.le l → StronglySorted Z.lt l.
Proof.
  induction 2 as [|x l Hs IH Hall]; constructor.
  - apply IH. by eapply NoDup_cons_1_2.
  - apply NoDup_cons in H as [Hx _].
    rewrite Forall_forall in Hall |- *. intros y Hy.
    assert (x ≠ y) by (intros ->; done). specialize (Hall y Hy). lia.
Qed.

(** ** Formatting cards *)

Lemma card_str_valid c : valid_card c → is_Some (card_str c).
Proof.
  intros [Hlo Hhi]. unfold card_str, py_index, rank_of, suit_of.
  pose proof (Z.mod_pos_bound c 13).
  assert (0 ≤ c `div` 13 < 4) by (split; [apply Z.div_pos|apply Z.div_lt_upper_bound]; lia).
  rewrite !decide_True by lia.
  destruct (lookup_lt_is_Some_2 RANK_NAMES (Z.to_nat (c `mod` 13))) as [r ->];
    [simpl; lia|].
  destruct (lookup_lt_is_Some_2 SUIT_NAMES (Z.to_nat (c `div` 13))) as [s ->];
    [simpl; lia|].
  by eexists.
Qed.

Lemma printable_valid ps : Forall (λ pc : nat * Z, valid_card pc.2) ps → printable ps.
Proof.
  intros Hall. apply mapM_is_Some. eapply Forall_impl; [exact Hall|].
  intros pc Hpc. by apply card_str_valid.
Qed.

(** ** Running the monad *)

Section Proofs.
Context {G : Type} `{!Random G}.
Abbreviation Env := (CardGameEnv G).

Lemma bind_Ok {A B} (c : M G A) (k : A → M G B) st a st' :
  c st = (Ok a, st') → bind c k st = k a st'.
Proof. unfold bind. by intros ->. Qed.

Lemma bind_Raise {A B} (c : M G A) (k : A → M G B) st e st' :
  c st = (Raise e, st') → bind c k st = (Raise e, st').
Proof. unfold bind. by intros ->. Qed.

Lemma bind_assoc {A B C} (c : M G A) (k1 : A → M G B) (k2 : B → M G C) st :
  bind (bind c k1) k2 st = bind c (λ x, bind (k1 x) k2) st.
Proof. unfold bind. by destruct (c st) as [[a|e] st']. Qed.

Lemma bind_ret {A B} (a : A) (k : A → M G B) st : bind (ret a) k st = k a st.
Proof. done. Qed.

Lemma gets_Ok {A} (f : Env → A) st : gets f st = (Ok (f st), st).
Proof. done. Qed.

Lemma modify_Ok (f : Env → Env) st : modify f st = (Ok tt, f st).
Proof. done. Qed.

Lemma hand_Ok pid (st : Env) h : hands st !! pid = Some h → hand pid st = (Ok h, st).
Proof. intros Hh. unfold hand. rewrite (bind_Ok _ _ _ _ _ (gets_Ok _ _)). by rewrite Hh. Qed.

Lemma trick_Ok (st : Env) t : current_trick st = Some t → trick st = (Ok t, st).
Proof. intros Ht. unfold trick. rewrite (bind_Ok _ _ _ _ _ (gets_Ok _ _)). by rewrite Ht. Qed.

Lemma set_hand_Ok pid h (st : Env) :
  set_hand pid h st = (Ok tt, with_hands (<[pid:=h]> (hands st)) st).
Proof. done. Qed.

Lemma set_plays_Ok ps (st : Env) t :
  current_trick st = Some t →
  set_plays ps st = (Ok tt, with_current_trick (Some (mkTrick (leader t) ps)) st).
Proof. intros Ht. unfold set_plays. by rewrite (bind_Ok _ _ _ _ _ (trick_Ok _ _ Ht)). Qed.

Lemma or_raise_Ok {A} e (o : option A) a (st : Env) : o = Some a → or_raise e o st = (Ok a, st).
Proof. by intros ->. Qed.

Ltac proj :=
  unfold with_rng, with_hands, with_tricks_won, with_tens_won,
    with_current_trick, with_current_player, with_done, with_dealt,
    with_rounds_played in *;
  cbn [rng hands tricks_won tens_won current_trick current_player done _dealt
       _rounds_played leader plays fst snd] in *.

Ltac solve_lookup :=
  first [ eassumption
        | apply list_lookup_insert_eq; rewrite ?length_insert; assumption
        | reflexivity ].

Ltac mstep :=
  first
    [ rewrite (bind_Ok _ _ _ _ _ (gets_Ok _ _))
    | rewrite (bind_Ok _ _ _ _ _ (modify_Ok _ _))
    | rewrite (bind_Ok _ _ _ _ _ (set_hand_Ok _ _ _))
    | erewrite (bind_Ok (hand _)) by (apply hand_Ok; proj; solve_lookup)
    | erewrite (bind_Ok trick) by (apply trick_Ok; proj; eauto)
    | erewrite (bind_Ok (set_plays _)) by (apply set_plays_Ok; proj; eauto)
    | erewrite (bind_Ok (or_raise _ _))
        by (apply or_raise_Ok; proj; first [eassumption | reflexivity])
    | rewrite bind_ret
    | rewrite bind_assoc ];
  proj.

(** ** Playing a card *)

(** [_print_current_trick] leaves the state as it is; it raises exactly
    when a card of the trick cannot be formatted. *)
Lemma print_cases (st : Env) t :
  current_trick st = Some t →
  (printable (plays t) ∧ _print_current_trick st = (Ok tt, st))
  ∨ (¬ printable (plays t) ∧ _print_current_trick st = (Raise IndexError, st)).
Proof.
  intros Ht. unfold _print_current_trick. mstep. rewrite Ht.
  destruct (decide (plays t = [])) as [Hnil|Hne].
  { left. split; [|done]. rewrite Hnil. by eexists. }
  unfold printable.
  destruct (mapM (λ pc : nat * Z, card_str pc.2) (plays t)) as [l|] eqn:E.
  - left. split; [by eexists|]. by mstep.
  - right. split; [by intros [? ?]|]. done.
Qed.

(** [_play_card] on a seat holding the card, in a state with a current
    trick.  The card recorded and the hand left are fixed by the trick, the
    hand and the card; the call returns unless a card cannot be
    formatted. *)
Lemma play_card_spec pid card (st : Env) h h' t :
  hands st !! pid = Some h →
  py_remove card h = Some h' →
  current_trick st = Some t →
  ∃ b c hf,
    ((b = false ∧ c = card ∧ hf = h'
      ∧ ∀ p0, head (plays t) = Some p0 →
          suit_of card = suit_of p0.2
          ∨ filter (λ x, suit_of x = suit_of p0.2) h' = [])
     ∨ (b = true ∧ ∃ p0, head (plays t) = Some p0
        ∧ suit_of card ≠ suit_of p0.2
        ∧ py_min rank_of (filter (λ x, suit_of x = suit_of p0.2) h') = Some c
        ∧ py_remove c (h' ++ [card]) = Some hf))
    ∧ (_play_card pid card st =
         (Ok b, mkEnv (rng st) (<[pid:=hf]> (hands st)) (tricks_won st) (tens_won st)
                      (Some (mkTrick (leader t) (plays t ++ [(pid, c)])))
                      ((current_player st + 1) `mod` 4)%nat
                      (done st) (_dealt st) (_rounds_played st))
       ∨ (¬ (printable (plays t ++ [(pid, card)])
             ∧ printable (plays t ++ [(pid, c)]))
          ∧ ∃ st', _play_card pid card st = (Raise IndexError, st'))).
Proof.
  intros Hh Hr Ht. destruct st as [g hs tw tn ct cp d dl rp]; proj. subst ct.
  assert (Hlen : (pid < length hs)%nat) by (by eapply lookup_lt_Some).
  unfold _play_card. repeat mstep.
  destruct t as [ld ps]; proj.
  (* the first print *)
  match goal with
  | |- context [bind _print_current_trick _ ?s] =>
      destruct (print_cases s (mkTrick ld (ps ++ [(pid, card)])) eq_refl)
        as [[Hp1 Hprint]|[Hp1 Hprint]]; proj
  end.
  2:{ rewrite (bind_Raise _ _ _ _ _ Hprint).
      destruct ps as [|p0 ps].
      { exists false, card, h'. split; [left; by split_and!|].
        right. split; [tauto|by eexists]. }
      destruct (decide (suit_of card = suit_of p0.2)) as [Hon|Hoff].
      { exists false, card, h'. split; [|right; split; [tauto|by eexists]].
        left. split_and!; try done. intros ? [= <-]. by left. }
      destruct (decide (filter (λ c0 : Z, suit_of c0 = suit_of p0.2) h' = []))
        as [Hled|Hled].
      { exists false, card, h'. split; [|right; split; [tauto|by eexists]].
        left. split_and!; try done. intros ? [= <-]. by right. }
      destruct (py_min_is_Some rank_of _ Hled) as [fc Hfc].
      assert (Hfin : fc ∈ h').
      { apply py_min_elem in Hfc. by apply list_elem_of_filter in Hfc as [_ ?]. }
      destruct (py_remove_is_Some _ _ Hfin) as [h'' Hh''].
      exists true, fc, (h'' ++ [card]). split; [|right; split; [tauto|by eexists]].
      right. split; [done|]. exists p0. split_and!; try done.
      by apply py_remove_app_l. }
  rewrite (bind_Ok _ _ _ _ _ Hprint). repeat mstep.
  destruct ps as [|p0 ps].
  { (* first play of the trick *)
    destruct (decide (1 < length ([] ++ [(pid, card)]))%nat) as [Hl|_];
      [simpl in Hl; lia|].
    repeat mstep. exists false, card, h'. split; [left; by split_and!|by left]. }
  destruct (decide (1 < length ((p0 :: ps) ++ [(pid, card)]))%nat) as [_|Hl];
    [|rewrite length_app in Hl; simpl in Hl; lia].
  repeat mstep.
  destruct (decide (suit_of card ≠ suit_of p0.2)) as [Hoff|Hon].
  2:{ repeat mstep. exists false, card, h'. split; [|by left]. left.
      split_and!; try done. intros ? [= <-]. left.
      by destruct (decide (suit_of card = suit_of p0.2)). }
  repeat mstep.
  destruct (decide (filter (λ c0 : Z, suit_of c0 = suit_of p0.2) h' ≠ [])) as [Hled|Hled].
  2:{ repeat mstep. exists false, card, h'. split; [|by left]. left.
      split_and!; try done. intros ? [= <-]. right.
      by destruct (decide (filter (λ c0 : Z, suit_of c0 = suit_of p0.2) h' = [])). }
  destruct (py_min_is_Some rank_of _ Hled) as [fc Hfc].
  assert (Hfin : fc ∈ h').
  { apply py_min_elem in Hfc. by apply list_elem_of_filter in Hfc as [_ ?]. }
  destruct (py_remove_is_Some _ _ Hfin) as [h'' Hh''].
  pose proof (py_remove_app_l _ _ _ [card] Hh'') as Hrem.
  repeat mstep.
  rewrite removelast_last, !list_insert_insert_eq.
  exists true, fc, (h'' ++ [card]).
  split; [right; split; [done|]; exists p0; by split_and!|].
  (* the second print *)
  match goal with
  | |- context [bind _print_current_trick _ ?s] =>
      destruct (print_cases s (mkTrick ld ((p0 :: ps) ++ [(pid, fc)])) eq_refl)
        as [[Hp2 Hprint2]|[Hp2 Hprint2]]; proj
  end.
  - left. rewrite (bind_Ok _ _ _ _ _ Hprint2). by repeat mstep.
  - right. split; [tauto|]. rewrite (bind_Raise _ _ _ _ _ Hprint2). by eexists.
Qed.

(** ** The automatic seats *)

Lemma auto_draw_elem g lead h :
  h ≠ [] →
  (auto_draw g lead h).1 ∈ h
  ∧ (suit_of (auto_draw g lead h).1 = lead
     ∨ filter (λ c, suit_of c = lead) h = []).
Proof.
  intros Hne. unfold auto_draw.
  destruct (decide (filter (λ c, suit_of c = lead) h ≠ [])) as [Hs|Hs].
  - pose proof (rng_choice_elem g _ Hs) as Hin.
    apply list_elem_of_filter in Hin as [? ?]. auto.
  - split; [by apply rng_choice_elem|]. right.
    by destruct (decide (filter (λ c, suit_of c = lead) h = [])).
Qed.

Lemma filter_nil_subseteq (P : Z → Prop) `{!∀ x, Decision (P x)} (l k : list Z) :
  k ⊆ l → filter P l = [] → filter P k = [].
Proof.
  intros Hsub Hnil. destruct (filter P k) as [|x k'] eqn:E; [done|].
  assert (Hx : x ∈ filter P k) by (rewrite E; by left).
  apply list_elem_of_filter in Hx as [HP Hx].
  assert (x ∈ filter P l) as Hbad by (apply list_elem_of_filter; auto).
  rewrite Hnil in Hbad. by apply elem_of_nil in Hbad.
Qed.

Lemma filter_nil_Forall (P : Z → Prop) `{!∀ x, Decision (P x)} (l : list Z) :
  filter P l = [] ↔ Forall (λ x, ¬ P x) l.
Proof.
  rewrite Forall_forall. split.
  - intros Hnil x Hx HP.
    assert (x ∈ filter P l) as Hbad by (apply list_elem_of_filter; auto).
    rewrite Hnil in Hbad. by apply elem_of_nil in Hbad.
  - intros Hall. destruct (filter P l) as [|x k'] eqn:E; [done|].
    assert (Hx : x ∈ filter P l) by (rewrite E; by left).
    apply list_elem_of_filter in Hx as [HP Hx]. by destruct (Hall x Hx).
Qed.

(** A seat with an empty hand is skipped. *)
Lemma auto_play_skip lead pid (st : Env) :
  hands st !! pid = Some [] → auto_play lead pid st = (Ok [], st).
Proof.
  intros Hh. unfold auto_play. repeat mstep.
  by destruct (decide ([] = [])).
Qed.

(** A seat with cards plays the card drawn for it, which [_play_card]
    records as it is. *)
Lemma auto_play_spec pid (st : Env) h t p0 :
  hands st !! pid = Some h →
  h ≠ [] →
  Forall valid_card h →
  current_trick st = Some t →
  head (plays t) = Some p0 →
  Forall (λ pc : nat * Z, valid_card pc.2) (plays t) →
  ∃ h' c g',
    auto_draw (rng st) (suit_of p0.2) h = (c, g')
    ∧ auto_play (suit_of p0.2) pid st =
        (Ok [false],
         mkEnv g' (<[pid:=h']> (hands st)) (tricks_won st) (tens_won st)
               (Some (mkTrick (leader t) (plays t ++ [(pid, c)])))
               ((current_player st + 1) `mod` 4)%nat
               (done st) (_dealt st) (_rounds_played st))
    ∧ py_remove c h = Some h'
    ∧ (suit_of c = suit_of p0.2
       ∨ filter (λ x, suit_of x = suit_of p0.2) h = []).
Proof.
  intros Hh Hne Hvh Ht Hp0 Hvt.
  destruct (auto_draw_elem (rng st) (suit_of p0.2) h Hne) as [Hin Hsuit].
  destruct (py_remove_is_Some _ _ Hin) as [h' Hr].
  unfold auto_play. repeat mstep.
  destruct (decide (h = [])) as [|_]; [done|].
  repeat mstep. fold (auto_draw (rng st) (suit_of p0.2) h).
  destruct (auto_draw (rng st) (suit_of p0.2) h) as [c g'] eqn:Hd.
  simpl in Hin, Hsuit, Hr. proj.
  exists h', c, g'. split_and!; [done| |done..].
  destruct (play_card_spec pid c (with_rng g' st) h h' t)
    as (b & c' & hf & Hres & Hplay); [done..|].
  destruct Hres as [(-> & -> & -> & _)|(_ & p1 & Hp1 & Hoff & Hmin & _)].
  - destruct Hplay as [Hplay|[Hnp _]].
    + rewrite (bind_Ok _ _ _ _ _ Hplay). repeat mstep. by destruct st.
    + destruct Hnp. cbn [current_trick with_rng].
      assert (printable (plays t ++ [(pid, c)])); [|done].
      apply printable_valid, Forall_app. split; [done|].
      apply Forall_singleton. rewrite Forall_forall in Hvh. by apply Hvh.
  - exfalso. rewrite Hp0 in Hp1. injection Hp1 as <-.
    destruct Hsuit as [Hs|Hs]; [done|].
    apply py_min_elem in Hmin.
    rewrite (filter_nil_subseteq _ h h' (py_remove_subseteq _ _ _ Hr) Hs) in Hmin.
    by apply elem_of_nil in Hmin.
Qed.

(** ** The four plays of a trick *)

Lemma step_plays_spec a (st : Env) h0 h1 h2 h3 :
  hands st = [h0; h1; h2; h3] →
  length h1 = length h0 → length h2 = length h0 → length h3 = length h0 →
  Forall (Forall valid_card) [h0; h1; h2; h3] →
  current_trick st = None ∨ current_trick st = Some fresh_trick →
  a ∈ h0 →
  ∃ h0' h1' h2' h3' c1 c2 c3 g' cp',
    step_plays a st =
      (Ok [false; false; false; false],
       mkEnv g' [h0'; h1'; h2'; h3'] (tricks_won st) (tens_won st)
             (Some (mkTrick 0 (trick_of a c1 c2 c3)))
             cp' (done st) (_dealt st) (_rounds_played st))
    ∧ py_remove a h0 = Some h0'
    ∧ py_remove c1 h1 = Some h1'
    ∧ py_remove c2 h2 = Some h2'
    ∧ py_remove c3 h3 = Some h3'
    ∧ (suit_of c1 = suit_of a ∨ filter (λ x, suit_of x = suit_of a) h1 = [])
    ∧ (suit_of c2 = suit_of a ∨ filter (λ x, suit_of x = suit_of a) h2 = [])
    ∧ (suit_of c3 = suit_of a ∨ filter (λ x, suit_of x = suit_of a) h3 = []).
Proof.
  intros Hhs Hl1 Hl2 Hl3 Hvalid Htr Ha.
  destruct (py_remove_is_Some _ _ Ha) as [h0' Hr0].
  assert (Hne : h0 ≠ [] ∧ h1 ≠ [] ∧ h2 ≠ [] ∧ h3 ≠ []).
  { pose proof (py_remove_length _ _ _ Hr0).
    split_and!; intros ->; simpl in *; lia. }
  destruct Hne as (_ & Hne1 & Hne2 & Hne3).
  apply Forall_cons in Hvalid as [Hv0 Hvalid].
  apply Forall_cons in Hvalid as [Hv1 Hvalid].
  apply Forall_cons in Hvalid as [Hv2 Hvalid].
  apply Forall_cons in Hvalid as [Hv3 _].
  assert (Hva : valid_card a) by (rewrite Forall_forall in Hv0; by apply Hv0).
  destruct st as [g hs tw tn ct cp d dl rp]; proj. subst hs.
  unfold step_plays. repeat mstep.
  assert (Hplay0 : ∀ cp0,
    _play_card 0 a (mkEnv g [h0; h1; h2; h3] tw tn (Some fresh_trick) cp0 d dl rp)
    = (Ok false, mkEnv g [h0'; h1; h2; h3] tw tn
               (Some (mkTrick 0 [(0%nat, a)])) ((cp0 + 1) `mod` 4)%nat d dl rp)).
  { intros cp0.
    destruct (play_card_spec 0 a
      (mkEnv g [h0; h1; h2; h3] tw tn (Some fresh_trick) cp0 d dl rp)
      h0 h0' fresh_trick) as (b & c & hf & Hres & Hplay); [done..|].
    destruct Hres as [(-> & -> & -> & _)|(_ & p & Hp & _)]; [|done].
    destruct Hplay as [Hplay|[Hnp _]]; [done|]. destruct Hnp.
    assert (printable (plays fresh_trick ++ [(0%nat, a)])); [|done].
    apply printable_valid. by apply Forall_singleton. }
  assert (Htail : ∀ cp0, ∃ h1' h2' h3' c1 c2 c3 g' cp',
    (let* r0 := _play_card 0 a in
     let* t := trick in
     let* first := or_raise IndexError (plays t !! 0%nat) in
     let* rs := for_each [1; 2; 3]%nat (auto_play (suit_of first.2)) in
     ret (r0 :: rs))
      (mkEnv g [h0; h1; h2; h3] tw tn (Some fresh_trick) cp0 d dl rp)
    = (Ok [false; false; false; false],
       mkEnv g' [h0'; h1'; h2'; h3'] tw tn
             (Some (mkTrick 0 (trick_of a c1 c2 c3)))
             cp' d dl rp)
    ∧ py_remove c1 h1 = Some h1'
    ∧ py_remove c2 h2 = Some h2'
    ∧ py_remove c3 h3 = Some h3'
    ∧ (suit_of c1 = suit_of a ∨ filter (λ x, suit_of x = suit_of a) h1 = [])
    ∧ (suit_of c2 = suit_of a ∨ filter (λ x, suit_of x = suit_of a) h2 = [])
    ∧ (suit_of c3 = suit_of a ∨ filter (λ x, suit_of x = suit_of a) h3 = [])).
  { intros cp0. rewrite (bind_Ok _ _ _ _ _ (Hplay0 cp0)). repeat mstep.
    cbn [for_each]. repeat mstep.
    assert (Hvt1 : Forall (λ pc : nat * Z, valid_card pc.2) [(0%nat, a)])
      by (by apply Forall_singleton).
    match goal with
    | |- context [bind (auto_play _ 1%nat) _ ?s] =>
        destruct (auto_play_spec 1 s h1 _ (0%nat, a) eq_refl Hne1 Hv1 eq_refl eq_refl Hvt1)
          as (h1' & c1 & g1 & _ & Hp1 & Hr1 & Hs1)
    end.
    rewrite (bind_Ok _ _ _ _ _ Hp1); clear Hp1. proj. cbn [list_insert app].
    repeat mstep.
    assert (Hvt2 : Forall (λ pc : nat * Z, valid_card pc.2) [(0%nat, a); (1%nat, c1)]).
    { repeat apply Forall_cons_2; [done| |done]. cbn [snd].
      rewrite Forall_forall in Hv1. by eapply Hv1, py_remove_elem. }
    match goal with
    | |- context [bind (auto_play _ 2%nat) _ ?s] =>
        destruct (auto_play_spec 2 s h2 _ (0%nat, a) eq_refl Hne2 Hv2 eq_refl eq_refl Hvt2)
          as (h2' & c2 & g2 & _ & Hp2 & Hr2 & Hs2)
    end.
    rewrite (bind_Ok _ _ _ _ _ Hp2); clear Hp2. proj. cbn [list_insert app].
    repeat mstep.
    assert (Hvt3 : Forall (λ pc : nat * Z, valid_card pc.2)
                     [(0%nat, a); (1%nat, c1); (2%nat, c2)]).
    { repeat apply Forall_cons_2; [done| | |done]; cbn [snd].
      - rewrite Forall_forall in Hv1. by eapply Hv1, py_remove_elem.
      - rewrite Forall_forall in Hv2. by eapply Hv2, py_remove_elem. }
    match goal with
    | |- context [bind (auto_play _ 3%nat) _ ?s] =>
        destruct (auto_play_spec 3 s h3 _ (0%nat, a) eq_refl Hne3 Hv3 eq_refl eq_refl Hvt3)
          as (h3' & c3 & g3 & _ & Hp3 & Hr3 & Hs3)
    end.
    rewrite (bind_Ok _ _ _ _ _ Hp3); clear Hp3. proj. cbn [list_insert app].
    repeat mstep. cbn [snd] in *.
    eexists h1', h2', h3', c1, c2, c3, g3, _. split; [reflexivity|].
    by split_and!. }
  destruct Htr as [-> | ->].
  - rewrite bool_decide_eq_true_2 by (by left). repeat mstep.
    destruct (Htail 0%nat) as (h1' & h2' & h3' & c1 & c2 & c3 & g' & cp' & Hrun & ?).
    exists h0', h1', h2', h3', c1, c2, c3, g', cp'. split; [exact Hrun|done].
  - rewrite bool_decide_eq_false_2 by (by intros [?|?]). repeat mstep.
    destruct (Htail cp) as (h1' & h2' & h3' & c1 & c2 & c3 & g' & cp' & Hrun & ?).
    exists h0', h1', h2', h3', c1, c2, c3, g', cp'. split; [exact Hrun|done].
Qed.

(** ** Scoring a trick *)

Lemma dict_add_Some k n (d : gmap nat Z) v :
  d !! k = Some v → dict_add k n d = Some (<[k:=v + n]> d).
Proof. intros Hk. unfold dict_add. by rewrite Hk. Qed.

Lemma end_trick_spec (st : Env) t w v u h0 :
  current_trick st = Some t →
  py_max (λ pc : nat * Z, rank_of pc.2) (plays t) = Some w →
  tricks_won st !! team_of w.1 = Some v →
  tens_won st !! team_of w.1 = Some u →
  hands st !! 0%nat = Some h0 →
  _end_trick_and_score st =
    (Ok (compute_reward (team_of w.1)),
     mkEnv (rng st) (hands st)
           (<[team_of w.1:=v + 1]> (tricks_won st))
           (<[team_of w.1:=u + tens_in (plays t)]> (tens_won st))
           (Some fresh_trick) 0
           (if decide (length h0 = 0%nat) then true else done st)
           (_dealt st) (_rounds_played st + 1)).
Proof.
  intros Ht Hw Hv Hu Hh.
  destruct st as [g hs tw tn ct cp d dl rp]; proj. subst ct.
  unfold _end_trick_and_score. repeat mstep.
  rewrite (bind_Ok _ _ _ _ _ (or_raise_Ok _ _ _ _ (dict_add_Some _ 1 _ _ Hv))).
  repeat mstep.
  destruct (decide (tens_in (plays t) ≠ 0)) as [Htens|Htens].
  - repeat mstep.
    rewrite (bind_Ok _ _ _ _ _
      (or_raise_Ok _ _ _ _ (dict_add_Some _ (tens_in (plays t)) _ _ Hu))).
    repeat mstep.
    destruct (decide (length h0 = 0%nat)); by repeat mstep.
  - assert (tens_in (plays t) = 0) as -> by (by destruct (decide (tens_in (plays t) = 0))).
    rewrite Z.add_0_r, (insert_id tn _ _ Hu).
    repeat mstep.
    destruct (decide (length h0 = 0%nat)); by repeat mstep.
Qed.

Lemma obs_spec (st : Env) h0 :
  hands st !! 0%nat = Some h0 →
  _obs st =
    (Ok (mkObs (sorted h0)
               (match current_trick st with Some t => plays t | None => [] end)
               (leader <$> current_trick st)
               (tricks_won st) (tens_won st) (length h0) (current_player st)),
     st).
Proof. intros Hh. unfold _obs. by repeat mstep. Qed.

(** ** Dealing *)

Lemma reset_spec seed (st : Env) :
  ∃ h0,
    hands (reset_state seed st) !! 0%nat = Some h0
    ∧ reset seed st =
        (Ok (mkObs (sorted h0) [] (Some 0%nat) zero_counters zero_counters
                   (length h0) 0),
         reset_state seed st).
Proof.
  eexists. split; [reflexivity|].
  unfold reset. destruct seed as [s|]; repeat mstep.
  all: by erewrite obs_spec by reflexivity.
Qed.

Lemma reset_total seed (st : Env) : (reset seed st).2 = reset_state seed st.
Proof. destruct (reset_spec seed st) as (h0 & _ & ->). done. Qed.

Lemma shuffled_length g : length (rng_shuffle g full_deck).1 = 52%nat.
Proof. by rewrite (rng_shuffle_perm g full_deck). Qed.

Lemma sorted_length l : length (sorted l) = length l.
Proof. by rewrite sorted_perm. Qed.

Lemma full_deck_valid : Forall valid_card full_deck.
Proof.
  apply Forall_forall. intros c Hc. unfold full_deck in Hc.
  apply elem_of_seqZ in Hc. unfold valid_card. lia.
Qed.

Lemma dealt_valid (deck : list Z) (n k : nat) :
  Forall valid_card deck → Forall valid_card (sorted (take n (drop k deck))).
Proof.
  intros Hall. rewrite sorted_perm. by apply Forall_take, Forall_drop.
Qed.

(** ** The invariant of reachable states *)

Lemma Inv_init seed entropy : Inv (__init__ seed entropy).
Proof.
  split; simpl.
  - by exists [], [], [], [].
  - by repeat constructor.
  - by left.
  - by exists 0, 0.
  - by exists 0, 0.
  - split; [done|]. by intros [? _].
  - done.
  - done.
Qed.

Lemma Inv_reset seed (st : Env) : Inv (reset_state seed st).
Proof.
  unfold reset_state. cbv zeta.
  set (deck := (rng_shuffle _ full_deck).1).
  assert (Hlen : length deck = 52%nat) by apply shuffled_length.
  assert (Hvalid : Forall valid_card deck).
  { unfold deck. rewrite rng_shuffle_perm. apply full_deck_valid. }
  split; cbn [hands current_trick tricks_won tens_won done _dealt _rounds_played].
  - eexists _, _, _, _. split; [done|].
    rewrite !sorted_length, !length_take, !length_drop, !Hlen. lia.
  - repeat apply Forall_cons_2; [..|done].
    + by apply (dealt_valid deck 13 0).
    + by apply dealt_valid.
    + by apply dealt_valid.
    + by apply dealt_valid.
  - by right.
  - by exists 0, 0.
  - by exists 0, 0.
  - split; [done|]. intros [_ Hnil]. injection Hnil as Hnil.
    apply (f_equal length) in Hnil.
    rewrite sorted_length, length_take, Hlen in Hnil. simpl in Hnil. lia.
  - done.
  - intros _. eexists. split; [done|].
    rewrite sorted_length, length_take, Hlen. lia.
Qed.

(** ** One call of [step] *)

Lemma team_of_cases pid : team_of pid = 0%nat ∨ team_of pid = 1%nat.
Proof. unfold team_of. case_bool_decide; auto. Qed.

Lemma step_cases a (st : Env) :
  Inv st → step_case a st (step a st).1 (step a st).2.
Proof.
  intros [(h0 & h1 & h2 & h3 & Hhs & Hl1 & Hl2 & Hl3) Hvalid Htr
          (ta & tb & Hta & Htb & _) (na & nb & Hna & Hnb & _) _ _ _].
  unfold step. mstep. destruct (done st) eqn:Hd.
  { by apply step_finished. }
  assert (Hh0 : hands st !! 0%nat = Some h0) by (by rewrite Hhs).
  mstep. destruct (decide (a ∉ h0)) as [Hout|Hin].
  { by eapply step_invalid. }
  assert (Ha : a ∈ h0) by (by destruct (decide (a ∈ h0))).
  rewrite Hhs in Hvalid.
  destruct (step_plays_spec a st h0 h1 h2 h3 Hhs Hl1 Hl2 Hl3 Hvalid Htr Ha)
    as (h0' & h1' & h2' & h3' & c1 & c2 & c3 & g' & cp'
        & Hplays & Hr0 & Hr1 & Hr2 & Hr3 & Hs1 & Hs2 & Hs3).
  rewrite (bind_Ok _ _ _ _ _ Hplays).
  unfold _is_trick_complete. repeat mstep.
  rewrite bool_decide_eq_true_2 by done.
  set (w := max_from (λ pc : nat * Z, rank_of pc.2) (0%nat, a)
              [(1, c1); (2, c2); (3, c3)]%nat).
  assert (∃ v u, tricks_won st !! team_of w.1 = Some v
                 ∧ tens_won st !! team_of w.1 = Some u) as (v & u & Hv & Hu).
  { destruct (team_of_cases w.1) as [-> | ->]; eauto. }
  erewrite (bind_Ok _end_trick_and_score)
    by (by eapply (end_trick_spec _ _ w v u h0')).
  proj. erewrite (bind_Ok _obs) by (by apply obs_spec).
  repeat mstep. unfold ret. cbn [fst snd fmap option_fmap option_map leader plays].
  rewrite Hd.
  by eapply (step_trick a st h0 h1 h2 h3 h0' h1' h2' h3' c1 c2 c3 g' cp' w v u).
Qed.

Lemma tens_in_nonneg ps : 0 ≤ tens_in ps.
Proof. unfold tens_in. lia. Qed.

Lemma py_remove_valid c h h' :
  py_remove c h = Some h' → Forall valid_card h → Forall valid_card h'.
Proof.
  intros Hr Hall. rewrite (py_remove_perm _ _ _ Hr) in Hall.
  by apply Forall_cons in Hall as [_ ?].
Qed.

Lemma step_case_Inv a (st : Env) r st' : Inv st → step_case a st r st' → Inv st'.
Proof.
  intros HI Hcase.
  destruct Hcase as [ | |h0 h1 h2 h3 h0' h1' h2' h3' c1 c2 c3 g' cp' w v u
    Hd Hhs Hr0 Hr1 Hr2 Hr3 _ _ _ _ _ Hv Hu tw' tn' d']; [done..|].
  destruct HI as [(k0 & k1 & k2 & k3 & Hks & Hl1 & Hl2 & Hl3) Hvalid _
                  (ta & tb & Hta & Htb & ? & ? & Hsum)
                  (na & nb & Hna & Hnb & ? & ?) Hdone Hund Hrnd].
  rewrite Hhs in Hks. injection Hks as <- <- <- <-.
  apply py_remove_length in Hr0 as Hn0, Hr1 as Hn1, Hr2 as Hn2, Hr3 as Hn3.
  assert (Hdl : _dealt st = true).
  { destruct (_dealt st) eqn:E; [done|].
    specialize (Hund eq_refl). rewrite Hhs in Hund. injection Hund as ->. done. }
  pose proof (tens_in_nonneg (trick_of a c1 c2 c3)).
  split; cbn [hands current_trick tricks_won tens_won done _dealt _rounds_played].
  - exists h0', h1', h2', h3'. split; [done|]. lia.
  - rewrite Hhs in Hvalid.
    apply Forall_cons in Hvalid as [Hv0 Hvalid].
    apply Forall_cons in Hvalid as [Hv1 Hvalid].
    apply Forall_cons in Hvalid as [Hv2 Hvalid].
    apply Forall_cons in Hvalid as [Hv3 _].
    repeat apply Forall_cons_2; [..|done]; by eapply py_remove_valid.
  - by right.
  - subst tw'. destruct (team_of_cases w.1) as [Hw|Hw]; rewrite Hw in *.
    + assert (v = ta) as -> by congruence. exists (ta + 1), tb.
      rewrite lookup_insert_eq, lookup_insert_ne by done.
      split_and!; [done..|lia|lia|lia].
    + assert (v = tb) as -> by congruence. exists ta, (tb + 1).
      rewrite lookup_insert_eq, lookup_insert_ne by done.
      split_and!; [done..|lia|lia|lia].
  - subst tn'. destruct (team_of_cases w.1) as [Hw|Hw]; rewrite Hw in *.
    + assert (u = na) as -> by congruence.
      exists (na + tens_in (trick_of a c1 c2 c3)), nb.
      rewrite lookup_insert_eq, lookup_insert_ne by done.
      split_and!; [done..|lia|lia].
    + assert (u = nb) as -> by congruence.
      exists na, (nb + tens_in (trick_of a c1 c2 c3)).
      rewrite lookup_insert_eq, lookup_insert_ne by done.
      split_and!; [done..|lia|lia].
  - subst d'. rewrite Hdl. destruct (decide (length h0' = 0%nat)) as [E|E].
    + apply length_zero_iff_nil in E as ->. done.
    + split; [done|]. intros [_ [= ->]]. done.
  - by rewrite Hdl.
  - intros _. exists h0'. split; [done|].
    destruct (Hrnd Hdl) as (k & Hk & Hsum'). rewrite Hhs in Hk.
    injection Hk as <-. lia.
Qed.

Lemma reachable_Inv (st : Env) : reachable st → Inv st.
Proof.
  induction 1 as [seed entropy|seed st _ IH|a st _ IH].
  - apply Inv_init.
  - rewrite reset_total. apply Inv_reset.
  - eapply step_case_Inv; [exact IH|]. by apply step_cases.
Qed.

(** * The specification *)

(** ** Card codec *)

(** C7. Codec round trip: for every card identifier [id] in [0,52),
    [decode_card id] is the pair [(id mod 13, id div 13)] of its rank and
    suit, [encode_card rank suit] is [suit * 13 + rank], and encoding the
    decoded pair gives [id] back. *)
Theorem codec_round_trip (id : Z) :
  0 ≤ id < 52 →
  decode_card id = (rank_of id, suit_of id)
  ∧ rank_of id = id `mod` 13
  ∧ suit_of id = id `div` 13
  ∧ (∀ rank suit, encode_card rank suit = suit * 13 + rank)
  ∧ encode_card (decode_card id).1 (decode_card id).2 = id.
Proof.
  intros _. split_and!; try done.
  unfold encode_card, decode_card, rank_of, suit_of. simpl.
  pose proof (Z.div_mod id 13). lia.
Qed.

(** ** Dealing *)

Lemma deal_split (deck : list Z) :
  length deck = 52%nat →
  take 13 deck ++ take 13 (drop 13 deck) ++ take 13 (drop 26 deck)
    ++ take 13 (drop 39 deck) = deck.
Proof.
  intros Hlen.
  rewrite (take_ge (drop 39 deck)) by (rewrite length_drop; lia).
  change 39%nat with (26 + 13)%nat at 1. rewrite <- drop_drop, take_drop.
  change 26%nat with (13 + 13)%nat at 1. rewrite <- drop_drop, take_drop.
  apply take_drop.
Qed.

Lemma NoDup_app4_disjoint (h0 h1 h2 h3 : list Z) (i j : nat) hi hj c :
  NoDup (h0 ++ h1 ++ h2 ++ h3) →
  [h0; h1; h2; h3] !! i = Some hi →
  [h0; h1; h2; h3] !! j = Some hj →
  i ≠ j → c ∈ hi → c ∉ hj.
Proof.
  intros Hnd Hi Hj Hij Hc Hc'.
  apply NoDup_app in Hnd as (_ & H01 & Hnd).
  apply NoDup_app in Hnd as (_ & H12 & Hnd).
  apply NoDup_app in Hnd as (_ & H23 & _).
  destruct i as [|[|[|[|i]]]]; simplify_eq/=;
    destruct j as [|[|[|[|j]]]]; simplify_eq/=;
    first [ eapply H01; [eassumption|]; set_solver
          | eapply H12; [eassumption|]; set_solver
          | eapply H23; [eassumption|]; set_solver ].
Qed.

(** C4. Deal partition: whatever the seed and the state [reset] is called
    in, it leaves four hands of 13 cards each, each sorted in ascending
    order of identifier; the hands are pairwise disjoint and free of
    duplicates, and together they hold exactly the identifiers 0..51. *)
Theorem deal_partition (seed : option Z) (st : Env) :
  ∃ h0 h1 h2 h3,
    hands (reset seed st).2 = [h0; h1; h2; h3]
    ∧ (∀ h, h ∈ [h0; h1; h2; h3] → length h = 13%nat ∧ Sorted Z.lt h)
    ∧ NoDup (h0 ++ h1 ++ h2 ++ h3)
    ∧ (∀ (i j : nat) hi hj c,
         [h0; h1; h2; h3] !! i = Some hi → [h0; h1; h2; h3] !! j = Some hj →
         i ≠ j → c ∈ hi → c ∉ hj)
    ∧ (∀ c, c ∈ h0 ++ h1 ++ h2 ++ h3 ↔ 0 ≤ c < 52).
Proof.
  rewrite reset_total. unfold reset_state. cbv zeta.
  set (deck := (rng_shuffle _ full_deck).1).
  assert (Hlen : length deck = 52%nat) by apply shuffled_length.
  assert (Hperm : deck ≡ₚ full_deck) by apply rng_shuffle_perm.
  eexists _, _, _, _. split; [reflexivity|].
  assert (Hall : sorted (take 13 deck) ++ sorted (take 13 (drop 13 deck))
                 ++ sorted (take 13 (drop 26 deck))
                 ++ sorted (take 13 (drop 39 deck)) ≡ₚ full_deck).
  { rewrite !sorted_perm, deal_split by done. done. }
  assert (Hnd : NoDup (sorted (take 13 deck) ++ sorted (take 13 (drop 13 deck))
                 ++ sorted (take 13 (drop 26 deck))
                 ++ sorted (take 13 (drop 39 deck)))).
  { rewrite Hall. apply NoDup_seqZ. }
  split_and!.
  - intros h Hh. split.
    + repeat (apply elem_of_cons in Hh as [->|Hh]);
        [..|by apply elem_of_nil in Hh];
        rewrite sorted_length, length_take, ?length_drop, Hlen; lia.
    + apply StronglySorted_Sorted, StronglySorted_le_lt.
      * apply NoDup_app in Hnd as (N0 & _ & Hnd).
        apply NoDup_app in Hnd as (N1 & _ & Hnd).
        apply NoDup_app in Hnd as (N2 & _ & N3).
        repeat (apply elem_of_cons in Hh as [->|Hh]); try done.
        by apply elem_of_nil in Hh.
      * repeat (apply elem_of_cons in Hh as [->|Hh]);
          [..|by apply elem_of_nil in Hh]; apply sorted_Sorted.
  - done.
  - intros i j hi hj c. by apply NoDup_app4_disjoint.
  - intros c. rewrite Hall. unfold full_deck. rewrite elem_of_seqZ. lia.
Qed.

(** ** Following suit *)

Lemma hand_Raise pid (st : Env) :
  hands st !! pid = None → hand pid st = (Raise IndexError, st).
Proof.
  intros Hh. unfold hand. rewrite (bind_Ok _ _ _ _ _ (gets_Ok _ _)). by rewrite Hh.
Qed.

Lemma trick_Raise (st : Env) :
  current_trick st = None → trick st = (Raise AssertionError, st).
Proof.
  intros Ht. unfold trick. rewrite (bind_Ok _ _ _ _ _ (gets_Ok _ _)). by rewrite Ht.
Qed.

(** A call of [_play_card] that returns found the card in the seat's hand
    and a current trick. *)
Lemma play_card_Ok_inv pid card (st : Env) b st' :
  _play_card pid card st = (Ok b, st') →
  ∃ h h' t,
    hands st !! pid = Some h ∧ py_remove card h = Some h'
    ∧ current_trick st = Some t.
Proof.
  intros Hrun. unfold _play_card in Hrun.
  destruct (hands st !! pid) as [h|] eqn:Hh.
  2:{ by rewrite (bind_Raise _ _ _ _ _ (hand_Raise _ _ Hh)) in Hrun. }
  rewrite (bind_Ok _ _ _ _ _ (hand_Ok _ _ _ Hh)) in Hrun.
  destruct (py_remove card h) as [h'|] eqn:Hr.
  2:{ by rewrite (bind_Raise _ _ _ ValueError st) in Hrun. }
  rewrite (bind_Ok _ _ _ _ _ (or_raise_Ok _ _ _ _ eq_refl)) in Hrun.
  rewrite (bind_Ok _ _ _ _ _ (set_hand_Ok _ _ _)) in Hrun.
  destruct (current_trick st) as [t|] eqn:Ht; [by exists h, h', t|].
  rewrite (bind_Raise trick _ _ AssertionError
             (with_hands (<[pid:=h']> (hands st)) st)) in Hrun; [done|].
  apply trick_Raise. by destruct st.
Qed.

(** C1. Suit-following invariant.  First, for the rule enforcer: whenever
    [_play_card] resolves a play that is not the first of its trick, the
    card it records for the seat has the lead suit (the suit of the trick's
    first play), or the seat's hand holds no card of the lead suit (neither
    before the call nor after it).  Second, for completed tricks: in every
    reachable state in which the agent holds the card it submits, the four
    plays of [step] complete a trick led by the agent's card, and every
    seat other than the leader has a recorded card of the lead suit, or had
    no card of the lead suit in its hand when the trick started (its hand is
    untouched until its own play is resolved). *)
Theorem suit_following :
  (∀ (st : Env) pid card b st' t p0,
     current_trick st = Some t →
     head (plays t) = Some p0 →
     _play_card pid card st = (Ok b, st') →
     ∃ c h h',
       current_trick st' = Some (mkTrick (leader t) (plays t ++ [(pid, c)]))
       ∧ hands st !! pid = Some h
       ∧ hands st' !! pid = Some h'
       ∧ (suit_of c = suit_of p0.2
          ∨ (∀ x, x ∈ h → suit_of x ≠ suit_of p0.2)
            ∧ (∀ x, x ∈ h' → suit_of x ≠ suit_of p0.2)))
  ∧ (∀ (st : Env) a,
       reachable st → holds st 0 a →
       ∃ flags st1 t,
         step_plays a st = (Ok flags, st1)
         ∧ current_trick st1 = Some t
         ∧ length (plays t) = 4%nat
         ∧ head (plays t) = Some (leader t, a)
         ∧ ∀ s c, (s, c) ∈ plays t → s ≠ leader t →
             ∃ h, hands st !! s = Some h ∧ c ∈ h
                  ∧ (suit_of c = suit_of a
                     ∨ ∀ x, x ∈ h → suit_of x ≠ suit_of a)).
Proof.
  split.
  - intros st pid card b st' t p0 Ht Hp0 Hrun.
    destruct (play_card_Ok_inv _ _ _ _ _ Hrun) as (h & h' & t' & Hh & Hr & Ht').
    rewrite Ht in Ht'. injection Ht' as <-.
    destruct (play_card_spec pid card st h h' t Hh Hr Ht)
      as (b' & c & hf & Hres & [Hplay|(_ & st'' & Hplay)]);
      rewrite Hplay in Hrun; [|done].
    injection Hrun as -> <-.
    assert (Hlen : (pid < length (hands st))%nat) by (by eapply lookup_lt_Some).
    exists c, h, hf. cbn [current_trick hands].
    split_and!; [done|done|by apply list_lookup_insert_eq|].
    destruct Hres as [(_ & -> & -> & Hsuit)|(_ & p1 & Hp1 & _ & Hmin & _)].
    + destruct (Hsuit p0 Hp0) as [Hon|Hnone]; [by left|].
      destruct (decide (suit_of card = suit_of p0.2)) as [Hon|Hoff]; [by left|].
      right. rewrite filter_nil_Forall, Forall_forall in Hnone.
      split; [|done]. intros x Hx.
      rewrite (py_remove_perm _ _ _ Hr) in Hx.
      apply elem_of_cons in Hx as [->|Hx]; [done|by apply Hnone].
    + left. rewrite Hp0 in Hp1. injection Hp1 as <-.
      apply py_min_elem, list_elem_of_filter in Hmin. tauto.
  - intros st a Hreach (k & Hk & Ha).
    destruct (reachable_Inv st Hreach)
      as [(h0 & h1 & h2 & h3 & Hhs & Hl1 & Hl2 & Hl3) Hvalid Htr _ _ _ _ _].
    rewrite Hhs in Hk. injection Hk as <-. rewrite Hhs in Hvalid.
    destruct (step_plays_spec a st h0 h1 h2 h3 Hhs Hl1 Hl2 Hl3 Hvalid Htr Ha)
      as (h0' & h1' & h2' & h3' & c1 & c2 & c3 & g' & cp'
          & Hplays & Hr0 & Hr1 & Hr2 & Hr3 & Hs1 & Hs2 & Hs3).
    eexists _, _, _. split; [exact Hplays|]. cbn [current_trick].
    split_and!; [done..|].
    intros s c Hsc Hs. cbn [plays leader] in *. rewrite Hhs.
    rewrite !filter_nil_Forall, !Forall_forall in Hs1, Hs2, Hs3.
    repeat (apply elem_of_cons in Hsc as [[= -> ->]|Hsc]);
      [done| | | |by apply elem_of_nil in Hsc].
    + exists h1. split_and!; [done|by eapply py_remove_elem|done].
    + exists h2. split_and!; [done|by eapply py_remove_elem|done].
    + exists h3. split_and!; [done|by eapply py_remove_elem|done].
Qed.

(** X16. When the rule enforcer overrides a play (the submitted card is
    off the lead suit), the card it records is a card of the lead suit
    from the seat's hand, of the lowest rank among them. *)
Lemma enforcer_follow_card pid card (st : Env) st' t p0 :
  current_trick st = Some t →
  head (plays t) = Some p0 →
  _play_card pid card st = (Ok true, st') →
  ∃ c h,
    current_trick st' = Some (mkTrick (leader t) (plays t ++ [(pid, c)]))
    ∧ hands st !! pid = Some h
    ∧ c ∈ h
    ∧ suit_of card ≠ suit_of p0.2
    ∧ suit_of c = suit_of p0.2
    ∧ ∀ x, x ∈ h → suit_of x = suit_of p0.2 → rank_of c ≤ rank_of x.
Proof.
  intros Ht Hp0 Hrun.
  destruct (play_card_Ok_inv _ _ _ _ _ Hrun) as (h & h' & t' & Hh & Hr & Ht').
  rewrite Ht in Ht'. injection Ht' as <-.
  destruct (play_card_spec pid card st h h' t Hh Hr Ht)
    as (b' & c & hf & Hres & [Hplay|(_ & st'' & Hplay)]);
    rewrite Hplay in Hrun; [|done].
  injection Hrun as -> <-.
  destruct Hres as [(? & _)|(_ & p1 & Hp1 & Hoff & Hmin & _)]; [done|].
  rewrite Hp0 in Hp1. injection Hp1 as <-.
  pose proof (py_min_elem _ _ _ Hmin) as Hc.
  apply list_elem_of_filter in Hc as [Hsuit Hc].
  exists c, h. cbn [current_trick]. split_and!; [done..| |done|done|].
  - by eapply py_remove_subseteq.
  - intros x Hx Hxs. apply (py_min_le _ _ _ _ Hmin).
    apply list_elem_of_filter. split; [done|].
    rewrite (py_remove_perm _ _ _ Hr) in Hx.
    apply elem_of_cons in Hx as [->|Hx]; [done|done].
Qed.

(** C10. The revert-and-replace branch of [_play_card] is dead in [step]:
    in every reachable state in which the agent holds the card it submits,
    [step] returns, its four [_play_card] calls all report that they kept
    the card they were given, the agent's card is the first play of the
    trick, each automatic seat's card has the lead suit unless the seat
    holds no card of that suit, and every hand is its former self with the
    recorded card removed (no card comes back). *)
Theorem revert_branch_unreachable (st : Env) a :
  reachable st → holds st 0 a →
  ∃ res st' st1 h0 h1 h2 h3 h0' h1' h2' h3' c1 c2 c3,
    step a st = (Ok res, st')
    ∧ step_plays a st = (Ok [false; false; false; false], st1)
    ∧ current_trick st1 = Some (mkTrick 0 (trick_of a c1 c2 c3))
    ∧ hands st = [h0; h1; h2; h3]
    ∧ hands st1 = [h0'; h1'; h2'; h3']
    ∧ py_remove a h0 = Some h0'
    ∧ py_remove c1 h1 = Some h1'
    ∧ py_remove c2 h2 = Some h2'
    ∧ py_remove c3 h3 = Some h3'
    ∧ (∀ c h, (c, h) ∈ [(c1, h1); (c2, h2); (c3, h3)] →
         suit_of c = suit_of a ∨ ∀ x, x ∈ h → suit_of x ≠ suit_of a).
Proof.
  intros Hreach (k & Hk & Ha).
  pose proof (reachable_Inv st Hreach) as HI.
  pose proof (step_cases a st HI) as Hcase.
  destruct (step a st) as [r st'] eqn:Hstep. cbn [fst snd] in Hcase.
  destruct Hcase as [Hd|h0 Hd Hh0 Hout|h0 h1 h2 h3 h0' h1' h2' h3' c1 c2 c3 g' cp'
    w v u Hd Hhs Hr0 Hr1 Hr2 Hr3 Hs1 Hs2 Hs3 Hplays _ _ _ tw' tn' d'].
  - apply (inv_done st HI) in Hd as [_ Hnil]. rewrite Hnil in Hk.
    injection Hk as <-. by apply elem_of_nil in Ha.
  - rewrite Hh0 in Hk. by injection Hk as <-.
  - eexists _, _, _, h0, h1, h2, h3, h0', h1', h2', h3', c1, c2, c3.
    split; [reflexivity|]. split; [exact Hplays|]. cbn [current_trick hands].
    split_and!; [done..|].
    rewrite !filter_nil_Forall, !Forall_forall in Hs1, Hs2, Hs3.
    intros c h Hch.
    repeat (apply elem_of_cons in Hch as [[= -> ->]|Hch]);
      [done..|by apply elem_of_nil in Hch].
Qed.

(** ** Failures of [step] *)

Lemma step_done a (st : Env) :
  done st = true → step a st = (Raise EpisodeFinished, st).
Proof. intros Hd. unfold step. mstep. by rewrite Hd. Qed.

Lemma step_not_held a (st : Env) h0 :
  done st = false → hands st !! 0%nat = Some h0 → a ∉ h0 →
  step a st = (Raise InvalidAction, st).
Proof.
  intros Hd Hh0 Hout. unfold step. mstep. rewrite Hd. mstep.
  by destruct (decide (a ∉ h0)).
Qed.

(** C6. [step] raises [EpisodeFinished] when [done] is set, and
    [InvalidAction] when [done] is not set and the submitted card is not in
    seat 0's hand; in both cases it leaves the whole state (hands, trick,
    counters, [done], generator) as it was.  In a reachable state these are
    the only two ways in which [step] fails. *)
Theorem step_failures (st : Env) a :
  (done st = true → step a st = (Raise EpisodeFinished, st))
  ∧ (∀ h0, done st = false → hands st !! 0%nat = Some h0 → a ∉ h0 →
       step a st = (Raise InvalidAction, st))
  ∧ (reachable st → ∀ e st', step a st = (Raise e, st') →
       st' = st
       ∧ (e = EpisodeFinished ∧ done st = true
          ∨ e = InvalidAction ∧ done st = false ∧ ¬ holds st 0 a)).
Proof.
  split_and!.
  - apply step_done.
  - intros h0. apply step_not_held.
  - intros Hreach e st' Hstep.
    pose proof (step_cases a st (reachable_Inv st Hreach)) as Hcase.
    rewrite Hstep in Hcase. cbn [fst snd] in Hcase.
    inversion Hcase as [Hd| h0 Hd Hh0 Hout| ]; subst.
    + auto.
    + split; [done|]. right. split_and!; [done..|].
      intros (k & Hk & Hin). rewrite Hh0 in Hk. by injection Hk as <-.
Qed.

(** ** Scoring *)

Lemma scorable_score (st : Env) t :
  scorable st t →
  ∃ w v u h0,
    py_max (λ pc : nat * Z, rank_of pc.2) (plays t) = Some w
    ∧ tricks_won st !! team_of w.1 = Some v
    ∧ tens_won st !! team_of w.1 = Some u
    ∧ hands st !! 0%nat = Some h0
    ∧ _end_trick_and_score st =
        (Ok (compute_reward (team_of w.1)),
         mkEnv (rng st) (hands st)
               (<[team_of w.1:=v + 1]> (tricks_won st))
               (<[team_of w.1:=u + tens_in (plays t)]> (tens_won st))
               (Some fresh_trick) 0
               (if decide (length h0 = 0%nat) then true else done st)
               (_dealt st) (_rounds_played st + 1)).
Proof.
  intros (Ht & Hlen & [h0 Hh0] & Hteams).
  destruct (plays t) as [|p l] eqn:Hps; [done|].
  set (w := max_from (λ pc : nat * Z, rank_of pc.2) p l).
  assert (Hlt : (team_of w.1 < 2)%nat)
    by (destruct (team_of_cases w.1) as [-> | ->]; lia).
  destruct (Hteams _ Hlt) as [[v Hv] [u Hu]].
  exists w, v, u, h0. split_and!; [done..|].
  rewrite <- Hps. apply end_trick_spec; try done. by rewrite Hps.
Qed.

(** C2. Trick winner: scoring a trick of four plays returns, and the winner
    is the seat of a play whose rank no play exceeds and every earlier play
    is strictly below (the first play of maximal rank; suits play no part);
    its team is team 0 for seats 0 and 2 and team 1 otherwise, and that
    team's [tricks_won] counter goes up by exactly 1, the other entries of
    [tricks_won] being unchanged. *)
Theorem trick_winner (st : Env) t :
  scorable st t →
  ∃ (i : nat) seat card n reward st',
    _end_trick_and_score st = (Ok reward, st')
    ∧ plays t !! i = Some (seat, card)
    ∧ (∀ s c, (s, c) ∈ plays t → rank_of c ≤ rank_of card)
    ∧ (∀ (j : nat) s c, (j < i)%nat → plays t !! j = Some (s, c) →
         rank_of c < rank_of card)
    ∧ team_of seat = (if decide (seat = 0 ∨ seat = 2)%nat then 0 else 1)%nat
    ∧ tricks_won st !! team_of seat = Some n
    ∧ tricks_won st' = <[team_of seat:=n + 1]> (tricks_won st).
Proof.
  intros Hsc.
  destruct (scorable_score st t Hsc) as (w & v & u & h0 & Hw & Hv & Hu & _ & Hrun).
  destruct (plays t) as [|p l] eqn:Hps; [done|].
  injection Hw as Hw.
  destruct (max_from_spec (λ pc : nat * Z, rank_of pc.2) p l)
    as (i & Hi & Hmax & Hfirst).
  rewrite Hw in Hi, Hmax, Hfirst. destruct w as [seat card]. cbn [fst snd] in *.
  exists i, seat, card, v. eexists _, _. split; [exact Hrun|].
  split_and!; [done| | | |done|done].
  - intros s c Hin. by apply (Hmax (s, c)).
  - intros j s c Hj Hjs. by apply (Hfirst j (s, c)).
  - unfold team_of. case_bool_decide; by destruct (decide (seat = 0 ∨ seat = 2)%nat).
Qed.

(** C3. Tens: scoring a trick of four plays adds to the winning team's
    [tens_won] counter the number of plays of the trick whose card has rank
    value 8 (the 10 pip), whichever seats played them, and leaves the other
    team's [tens_won] and [tricks_won] counters unchanged; and from a
    reachable state no call of [step] lowers a counter of either team. *)
Theorem tens_scoring :
  (∀ (st : Env) t,
     scorable st t →
     ∃ winner n reward st',
       py_max (λ pc : nat * Z, rank_of pc.2) (plays t) = Some winner
       ∧ _end_trick_and_score st = (Ok reward, st')
       ∧ tens_won st !! team_of winner.1 = Some n
       ∧ tens_won st' !! team_of winner.1 =
           Some (n + Z.of_nat (length
                   (filter (λ pc : nat * Z, rank_of pc.2 = 8) (plays t))))
       ∧ ∀ other, other ≠ team_of winner.1 →
           tens_won st' !! other = tens_won st !! other
           ∧ tricks_won st' !! other = tricks_won st !! other)
  ∧ (∀ (st : Env) a team,
       reachable st → (team < 2)%nat →
       ∃ v v' n n',
         tricks_won st !! team = Some v
         ∧ tricks_won (step a st).2 !! team = Some v'
         ∧ tens_won st !! team = Some n
         ∧ tens_won (step a st).2 !! team = Some n'
         ∧ v ≤ v' ∧ n ≤ n').
Proof.
  split.
  - intros st t Hsc.
    destruct (scorable_score st t Hsc) as (w & v & u & h0 & Hw & Hv & Hu & _ & Hrun).
    exists w, u. eexists _, _. split; [done|]. split; [exact Hrun|].
    cbn [tens_won tricks_won]. split_and!; [done|by rewrite lookup_insert_eq|].
    intros other Hne. by rewrite !lookup_insert_ne.
  - intros st a team Hreach Hteam.
    pose proof (reachable_Inv st Hreach) as HI.
    pose proof (step_cases a st HI) as Hcase.
    destruct (inv_tricks st HI) as (ta & tb & Hta & Htb & _).
    destruct (inv_tens st HI) as (na & nb & Hna & Hnb & _).
    assert (∃ v n, tricks_won st !! team = Some v ∧ tens_won st !! team = Some n)
      as (v & n & Hv & Hn).
    { destruct team as [|[|team]]; [eauto..|lia]. }
    destruct (step a st) as [r st'] eqn:Hstep. cbn [fst snd] in *.
    destruct Hcase as [Hd|h0 Hd Hh0 Hout|h0 h1 h2 h3 h0' h1' h2' h3' c1 c2 c3 g' cp'
      w v0 u0 _ _ _ _ _ _ _ _ _ _ _ Hv0 Hu0 tw' tn' d'].
    + exists v, v, n, n. split_and!; [done..|lia|lia].
    + exists v, v, n, n. split_and!; [done..|lia|lia].
    + cbn [tricks_won tens_won]. subst tw' tn'.
      pose proof (tens_in_nonneg (trick_of a c1 c2 c3)).
      destruct (decide (team_of w.1 = team)) as [<-|Hne].
      * exists v0, (v0 + 1), u0, (u0 + tens_in (trick_of a c1 c2 c3)).
        rewrite !lookup_insert_eq. split_and!; [done..|lia|lia].
      * exists v, v, n, n. rewrite !lookup_insert_ne by done.
        split_and!; [done..|lia|lia].
Qed.

(** ** Episodes *)

Lemma step_case_Ok a (st : Env) res st' :
  step_case a st (Ok res) st' →
  _rounds_played st' = _rounds_played st + 1
  ∧ _dealt st' = _dealt st
  ∧ done st = false
  ∧ holds st 0 a.
Proof.
  inversion 1 as [ | |h0 h1 h2 h3 h0' h1' h2' h3' c1 c2 c3 g' cp' w v u
    Hd Hhs Hr0]; subst.
  split_and!; [done..|]. exists h0. rewrite Hhs. split; [done|].
  by eapply py_remove_elem.
Qed.

Lemma run_nil (st : Env) : run [] st = (Ok [], st).
Proof. done. Qed.

Lemma run_cons_Ok a rest (st : Env) :
  is_Ok (run (a :: rest) st).1 →
  ∃ res,
    (step a st).1 = Ok res
    ∧ is_Ok (run rest (step a st).2).1
    ∧ (run (a :: rest) st).2 = (run rest (step a st).2).2.
Proof.
  cbn [run]. destruct (step a st) as [[res|e] st1] eqn:Hs; cbn [fst snd].
  - rewrite (bind_Ok _ _ _ _ _ Hs).
    destruct (run rest st1) as [[rs|e] st2] eqn:Hr; cbn [fst snd].
    + rewrite (bind_Ok _ _ _ _ _ Hr). intros _. exists res.
      split_and!; [done|by eexists|done].
    + rewrite (bind_Raise _ _ _ _ _ Hr). by intros [? ?].
  - rewrite (bind_Raise _ _ _ _ _ Hs). by intros [? ?].
Qed.

(** After a run of successful [step] calls from a state of the invariant,
    the invariant holds and the round counter has advanced by their
    number. *)
Lemma run_Inv actions (st : Env) :
  Inv st → is_Ok (run actions st).1 →
  Inv (run actions st).2
  ∧ _rounds_played (run actions st).2 = _rounds_played st + Z.of_nat (length actions)
  ∧ _dealt (run actions st).2 = _dealt st.
Proof.
  revert st. induction actions as [|a rest IH]; intros st HI Hok.
  - rewrite run_nil. cbn [fst snd length]. split_and!; [done|lia|done].
  - destruct (run_cons_Ok a rest st Hok) as (res & Hres & Hrest & ->).
    pose proof (step_cases a st HI) as Hcase. rewrite Hres in Hcase.
    destruct (step_case_Ok _ _ _ _ Hcase) as (Hrp & Hdl & _).
    destruct (IH _ (step_case_Inv _ _ _ _ HI Hcase) Hrest) as (HI' & Hrp' & Hdl').
    split_and!; [done| |congruence].
    rewrite Hrp', Hrp. cbn [length]. lia.
Qed.

Lemma reset_fresh seed (st : Env) :
  Inv (reset seed st).2
  ∧ _rounds_played (reset seed st).2 = 0
  ∧ _dealt (reset seed st).2 = true
  ∧ done (reset seed st).2 = false.
Proof. rewrite reset_total. split; [apply Inv_reset|done]. Qed.

(** From a state of the invariant in which the agent holds the submitted
    card, [step] returns. *)
Lemma step_progress a (st : Env) : Inv st → holds st 0 a → is_Ok (step a st).1.
Proof.
  intros HI (k & Hk & Ha). pose proof (step_cases a st HI) as Hcase.
  destruct (step a st) as [r st']. cbn [fst snd] in *.
  destruct Hcase as [Hd|h0 Hd Hh0 Hout|]; [| |by eexists].
  - apply (inv_done st HI) in Hd as [_ Hnil]. rewrite Hnil in Hk.
    injection Hk as <-. by apply elem_of_nil in Ha.
  - rewrite Hh0 in Hk. by injection Hk as <-.
Qed.

(** C5. Episode termination: after [reset], a sequence of successful [step]
    calls has at most 13 calls, and [done] is set after it exactly when it
    has 13 calls, which is exactly when seat 0's hand is empty.  Once [done]
    is set every [step] call raises [EpisodeFinished] and leaves the state
    as it is (so all later calls fail alike) until [reset], which clears
    [done]; while [done] is not set the agent holds a card, and submitting
    any card it holds makes [step] return. *)
Theorem episode_termination seed (e : Env) actions :
  let st := (run actions (reset seed e).2).2 in
  is_Ok (run actions (reset seed e).2).1 →
  (length actions ≤ 13)%nat
  ∧ (done st = true ↔ length actions = 13%nat)
  ∧ (done st = true ↔ hands st !! 0%nat = Some [])
  ∧ (done st = true → ∀ a, step a st = (Raise EpisodeFinished, st))
  ∧ (done st = false →
       (∃ a, holds st 0 a) ∧ ∀ a, holds st 0 a → is_Ok (step a st).1)
  ∧ (∀ seed', done (reset seed' st).2 = false).
Proof.
  intros st Hok.
  destruct (reset_fresh seed e) as (HI0 & Hrp0 & Hdl0 & _).
  destruct (run_Inv actions _ HI0 Hok) as (HI & Hrp & Hdl). fold st in HI, Hrp, Hdl.
  rewrite Hrp0 in Hrp. rewrite Hdl0 in Hdl.
  destruct (inv_rounds st HI Hdl) as (h0 & Hh0 & Hsum).
  pose proof (inv_done st HI) as Hdone. rewrite Hdl, Hh0 in Hdone.
  assert (Hnil : done st = true ↔ h0 = []).
  { rewrite Hdone. split; [by intros [_ [= ->]]|by intros ->]. }
  split_and!.
  - lia.
  - rewrite Hnil. split.
    + intros ->. simpl in Hsum. lia.
    + intros Hlen. apply length_zero_iff_nil. lia.
  - rewrite Hnil, Hh0. split; [by intros ->|by intros [= ->]].
  - intros Hd a. by apply step_done.
  - intros Hd. split.
    + destruct h0 as [|c h0]; [|exists c, (c :: h0); split; [done|by left]].
      assert (done st = true) by (by apply Hnil). congruence.
    + intros a. by apply step_progress.
  - intros seed'. apply reset_fresh.
Qed.

(** C8. Reward and trick count with the default [compute_reward]: in every
    reachable state in which the agent holds the card it submits, [step]
    returns after a trick of four plays with reward [1.0] when the trick's
    winner is seat 0 or 2 (team 0) and [-1.0] otherwise, the winner's team
    being the one whose [tricks_won] counter went up by 1; and after any
    sequence of successful [step] calls following [reset],
    [tricks_won[0] + tricks_won[1]] is the number of those calls, as is
    [_rounds_played]; in every reachable state the two counters add up to
    [_rounds_played], the engine's own count of the tricks resolved since
    the episode began. *)
Theorem reward_and_trick_count :
  (∀ (st : Env) a,
     reachable st → holds st 0 a →
     ∃ res st' flags st1 t winner n,
       step a st = (Ok res, st')
       ∧ step_plays a st = (Ok flags, st1)
       ∧ current_trick st1 = Some t
       ∧ length (plays t) = 4%nat
       ∧ py_max (λ pc : nat * Z, rank_of pc.2) (plays t) = Some winner
       ∧ res_reward res =
           (if decide (winner.1 = 0 ∨ winner.1 = 2)%nat
            then 1.0 else -1.0)%float
       ∧ tricks_won st !! team_of winner.1 = Some n
       ∧ tricks_won st' = <[team_of winner.1:=n + 1]> (tricks_won st)
       ∧ (team_of winner.1 = 0%nat ↔ (winner.1 = 0 ∨ winner.1 = 2)%nat))
  ∧ (∀ seed (e : Env) actions,
       let st := (run actions (reset seed e).2).2 in
       is_Ok (run actions (reset seed e).2).1 →
       ∃ a b,
         tricks_won st !! 0%nat = Some a
         ∧ tricks_won st !! 1%nat = Some b
         ∧ a + b = Z.of_nat (length actions)
         ∧ _rounds_played st = Z.of_nat (length actions))
  ∧ (∀ st : Env,
       reachable st →
       ∃ a b,
         tricks_won st !! 0%nat = Some a
         ∧ tricks_won st !! 1%nat = Some b
         ∧ a + b = _rounds_played st).
Proof.
  split_and!.
  - intros st a Hreach Hholds.
    pose proof (reachable_Inv st Hreach) as HI.
    pose proof (step_cases a st HI) as Hcase.
    destruct (step_progress a st HI Hholds) as [res Hres].
    destruct (step a st) as [r st'] eqn:Hstep. cbn [fst snd] in *. subst r.
    inversion Hcase as [ | |h0 h1 h2 h3 h0' h1' h2' h3' c1 c2 c3 g' cp'
      w v u Hd Hhs Hr0 Hr1 Hr2 Hr3 Hs1 Hs2 Hs3 Hplays Hw Hv Hu]; subst.
    eexists _, _, _, _, _, w, v. split; [reflexivity|]. split; [exact Hplays|].
    cbn [current_trick plays res_reward tricks_won].
    assert (Hteam : team_of w.1 = 0%nat ↔ (w.1 = 0 ∨ w.1 = 2)%nat).
    { unfold team_of. case_bool_decide; split; auto; try done. }
    split_and!; [done..| |done|done|done].
    unfold compute_reward.
    destruct (decide (team_of w.1 = 0%nat)) as [E|E],
             (decide (w.1 = 0 ∨ w.1 = 2)%nat) as [E'|E']; tauto.
  - intros seed e actions st Hok.
    destruct (reset_fresh seed e) as (HI0 & Hrp0 & _).
    destruct (run_Inv actions _ HI0 Hok) as (HI & Hrp & _). fold st in HI, Hrp.
    destruct (inv_tricks st HI) as (a & b & Ha & Hb & _ & _ & Hsum).
    exists a, b. split_and!; [done..|lia|lia].
  - intros st Hreach.
    destruct (inv_tricks st (reachable_Inv st Hreach))
      as (a & b & Ha & Hb & _ & _ & Hsum).
    by exists a, b.
Qed.

(** C9. Determinism under a fixed seed: [reset] with a seed leaves the same
    state and returns the same observation whatever state the instance was
    in, so two instances reset with the same seed and given the same
    actions return the same results from every [step] (observations,
    rewards, termination flags, exceptions) and end in the same state, the
    generator included; likewise for two instances constructed with the
    same seed and reset without one. *)
Theorem seeded_determinism (seed : Z) (e1 e2 : Env) (g1 g2 : G) actions :
  reset (Some seed) e1 = reset (Some seed) e2
  ∧ run actions (reset (Some seed) e1).2 = run actions (reset (Some seed) e2).2
  ∧ reset None (__init__ (Some seed) g1) = reset None (__init__ (Some seed) g2)
  ∧ run actions (reset None (__init__ (Some seed) g1)).2
    = run actions (reset None (__init__ (Some seed) g2)).2.
Proof.
  assert (Hreset : reset (Some seed) e1 = reset (Some seed) e2).
  { destruct (reset_spec (Some seed) e1) as (h1 & Hh1 & ->).
    destruct (reset_spec (Some seed) e2) as (h2 & Hh2 & ->).
    change (reset_state (Some seed) e2) with (reset_state (Some seed) e1) in *.
    congruence. }
  split_and!; [done|by rewrite Hreset|done|done].
Qed.

(** * Further properties of the code *)

(** ** The codec and the card names *)

(** X1. Decoding an encoded pair gives the pair back exactly when the rank
    is one of the 13 rank values; with a suit among the four suits the
    identifier is then one of the 52 cards. *)
Theorem decode_encode (rank suit : Z) :
  (decode_card (encode_card rank suit) = (rank, suit) ↔ 0 ≤ rank < 13)
  ∧ (0 ≤ rank < 13 → 0 ≤ suit < 4 → valid_card (encode_card rank suit)).
Proof.
  unfold decode_card, encode_card, rank_of, suit_of, valid_card. split.
  - split.
    + intros [= Hr _]. pose proof (Z.mod_pos_bound (suit * 13 + rank) 13). lia.
    + intros Hr. f_equal.
      * rewrite Z.add_comm, Z_mod_plus_full. by apply Z.mod_small.
      * rewrite Z.add_comm, Z_div_plus_full by lia.
        rewrite Z.div_small by done. lia.
  - lia.
Qed.

Lemma py_index_is_Some {A} (l : list A) (i : Z) :
  is_Some (py_index l i) ↔ - Z.of_nat (length l) ≤ i < Z.of_nat (length l).
Proof.
  unfold py_index. destruct (decide (0 ≤ i)) as [Hi|Hi].
  - rewrite lookup_lt_is_Some. lia.
  - destruct (decide (- Z.of_nat (length l) ≤ i)) as [Hlo|Hlo].
    + rewrite lookup_lt_is_Some. lia.
    + split; [by intros [? ?]|lia].
Qed.

Lemma card_str_is_Some c : is_Some (card_str c) ↔ -52 ≤ c < 52.
Proof.
  unfold card_str.
  pose proof (py_index_is_Some RANK_NAMES (rank_of c)) as Hr.
  pose proof (py_index_is_Some SUIT_NAMES (suit_of c)) as Hs.
  change (Z.of_nat (length RANK_NAMES)) with 13 in Hr.
  change (Z.of_nat (length SUIT_NAMES)) with 4 in Hs.
  unfold rank_of, suit_of in *.
  pose proof (Z.mod_pos_bound c 13).
  pose proof (Z.div_mod c 13).
  destruct (py_index RANK_NAMES (c `mod` 13)) as [r|].
  2:{ destruct Hr as [_ Hr]. destruct Hr; [lia|done]. }
  destruct (py_index SUIT_NAMES (c `div` 13)) as [s|]; simpl.
  - split; [intros _|by eexists]. destruct Hs as [Hs _].
    specialize (Hs (ltac:(by eexists))). lia.
  - split; [by intros [? ?]|]. intros Hc. destruct Hs as [_ Hs].
    destruct Hs; [lia|done].
Qed.

(** X2. [card_str] formats exactly the identifiers from -52 to 51 and
    raises [IndexError] on every other one; a negative identifier in that
    range is not refused but named as the card 52 above it (the suit index
    counts from the end of [SUIT_NAMES]). *)
Theorem card_str_domain (c : Z) :
  (is_Some (card_str c) ↔ -52 ≤ c < 52)
  ∧ (-52 ≤ c < 0 → card_str c = card_str (c + 52)).
Proof.
  split; [apply card_str_is_Some|].
  intros Hc. unfold card_str, rank_of, suit_of.
  replace (c + 52) with (c + 4 * 13) by lia.
  rewrite Z_mod_plus_full, Z_div_plus_full by lia.
  pose proof (Z.div_mod c 13). pose proof (Z.mod_pos_bound c 13).
  assert (-4 ≤ c `div` 13 < 0) as Hs by lia.
  assert (py_index SUIT_NAMES (c `div` 13) = py_index SUIT_NAMES (c `div` 13 + 4))
    as ->; [|done].
  unfold py_index. change (Z.of_nat (length SUIT_NAMES)) with 4.
  rewrite (decide_False (P := 0 ≤ c `div` 13)) by lia.
  rewrite (decide_True (P := 0 ≤ c `div` 13 + 4)) by lia.
  rewrite decide_True by lia.
  by replace (4 + c `div` 13) with (c `div` 13 + 4) by lia.
Qed.

Lemma NoDup_fmap_inj {A B} (f : A → B) (l : list A) x y :
  NoDup (f <$> l) → x ∈ l → y ∈ l → f x = f y → x = y.
Proof.
  induction l as [|z l IH]; intros Hnd Hx Hy Hxy; [by apply elem_of_nil in Hx|].
  rewrite fmap_cons in Hnd. apply NoDup_cons in Hnd as [Hz Hnd].
  apply elem_of_cons in Hx as [->|Hx]; apply elem_of_cons in Hy as [->|Hy].
  - done.
  - destruct Hz. rewrite Hxy. by apply list_elem_of_fmap_2.
  - destruct Hz. rewrite <- Hxy. by apply list_elem_of_fmap_2.
  - by apply IH.
Qed.

(** X3. The 52 cards have 52 different names: two card identifiers in
    [0,52) are formatted alike by [card_str] only when they are the same
    card. *)
Theorem card_str_inj (c1 c2 : Z) :
  valid_card c1 → valid_card c2 → card_str c1 = card_str c2 ↔ c1 = c2.
Proof.
  intros H1 H2. split; [|by intros ->].
  apply (NoDup_fmap_inj card_str (seqZ 0 52)).
  - apply (bool_decide_unpack _). vm_compute. exact I.
  - apply elem_of_seqZ. unfold valid_card in H1. lia.
  - apply elem_of_seqZ. unfold valid_card in H2. lia.
Qed.

(** ** Playing a card: conservation and failures *)

(** X4. A call of [_play_card] that returns moves exactly one card from
    the seat's hand to the end of the current trick, also when the rule
    enforcer replaces the submitted card: the former hand is a permutation
    of the recorded card and the hand left.  The other hands, the
    generator, the counters and the flags are untouched, and the turn
    pointer advances by one modulo 4. *)
Theorem play_card_conserves (st : Env) pid card b st' :
  _play_card pid card st = (Ok b, st') →
  ∃ h h' t c,
    hands st !! pid = Some h
    ∧ hands st' = <[pid:=h']> (hands st)
    ∧ h ≡ₚ c :: h'
    ∧ (b = false → c = card)
    ∧ current_trick st = Some t
    ∧ current_trick st' = Some (mkTrick (leader t) (plays t ++ [(pid, c)]))
    ∧ current_player st' = ((current_player st + 1) `mod` 4)%nat
    ∧ rng st' = rng st
    ∧ tricks_won st' = tricks_won st ∧ tens_won st' = tens_won st
    ∧ done st' = done st ∧ _dealt st' = _dealt st
    ∧ _rounds_played st' = _rounds_played st.
Proof.
  intros Hrun.
  destruct (play_card_Ok_inv _ _ _ _ _ Hrun) as (h & h' & t & Hh & Hr & Ht).
  destruct (play_card_spec pid card st h h' t Hh Hr Ht)
    as (b' & c & hf & Hres & [Hplay|(_ & st'' & Hplay)]);
    rewrite Hplay in Hrun; [|done].
  injection Hrun as -> <-.
  exists h, hf, t, c. cbn [hands current_trick current_player rng tricks_won
    tens_won done _dealt _rounds_played].
  split_and!; try done.
  - destruct Hres as [(_ & -> & -> & _)|(_ & p0 & _ & _ & _ & Hrem)].
    + by apply py_remove_perm.
    + rewrite <- (py_remove_perm _ _ _ Hrem), (py_remove_perm _ _ _ Hr).
      by rewrite Permutation_cons_append.
  - intros ->. by destruct Hres as [(_ & -> & _)|(? & _)].
Qed.

(** X5. How [_play_card] fails.  A seat number with no hand raises
    [IndexError] and a card that the seat does not hold raises
    [ValueError], both leaving the state as it was; without a current
    trick the assertion fails only after the card was taken out of the
    hand, so the state left has lost the card. *)
Theorem play_card_failures (st : Env) pid card :
  (hands st !! pid = None → _play_card pid card st = (Raise IndexError, st))
  ∧ (∀ h, hands st !! pid = Some h → card ∉ h →
       _play_card pid card st = (Raise ValueError, st))
  ∧ (∀ h h', hands st !! pid = Some h → py_remove card h = Some h' →
       current_trick st = None →
       _play_card pid card st
       = (Raise AssertionError, with_hands (<[pid:=h']> (hands st)) st)).
Proof.
  split_and!.
  - intros Hh. unfold _play_card.
    by rewrite (bind_Raise _ _ _ _ _ (hand_Raise _ _ Hh)).
  - intros h Hh Hout. unfold _play_card. mstep.
    destruct (py_remove card h) as [h'|] eqn:Hr.
    { destruct Hout. by eapply py_remove_elem. }
    by rewrite (bind_Raise _ _ _ ValueError st).
  - intros h h' Hh Hr Ht. unfold _play_card. repeat mstep.
    rewrite (bind_Raise trick _ _ AssertionError
               (with_hands (<[pid:=h']> (hands st)) st)); [done|].
    apply trick_Raise. by destruct st.
Qed.

(** X6. Before the first [reset] no [step] call can succeed: in every
    reachable state in which no cards were dealt yet, [step] raises
    [InvalidAction] whatever the action, and changes nothing. *)
Theorem step_before_reset (st : Env) a :
  reachable st → _dealt st = false →
  step a st = (Raise InvalidAction, st).
Proof.
  intros Hreach Hdl. pose proof (reachable_Inv st Hreach) as HI.
  apply (step_not_held a st []).
  - destruct (done st) eqn:Hd; [|done].
    apply (inv_done st HI) in Hd as [Hd _]. congruence.
  - by apply (inv_undealt st HI).
  - apply not_elem_of_nil.
Qed.

(** X7. How [_end_trick_and_score] fails on what is not a trick to score:
    without a current trick it raises [AssertionError], and on a trick
    with no plays [ValueError] ([max] of an empty sequence); in both cases
    no counter, flag or hand has changed. *)
Theorem end_trick_failures (st : Env) :
  (current_trick st = None →
     _end_trick_and_score st = (Raise AssertionError, st))
  ∧ (∀ t, current_trick st = Some t → plays t = [] →
       _end_trick_and_score st = (Raise ValueError, st)).
Proof.
  split.
  - intros Ht. unfold _end_trick_and_score.
    by rewrite (bind_Raise _ _ _ _ _ (trick_Raise _ Ht)).
  - intros t Ht Hnil. unfold _end_trick_and_score. mstep. rewrite Hnil.
    by rewrite (bind_Raise _ _ _ ValueError st).
Qed.

(** ** The cards of reachable states *)

Lemma py_remove_StronglySorted (R : relation Z) x l l' :
  py_remove x l = Some l' → StronglySorted R l → StronglySorted R l'.
Proof.
  revert l'. induction l as [|y l IH]; intros l' Hr Hs; simpl in Hr; [done|].
  apply StronglySorted_inv in Hs as [Hs Hall].
  destruct (decide (y = x)) as [->|Hne]; [by injection Hr as <-|].
  destruct (py_remove x l) as [l''|] eqn:E; simplify_eq/=.
  constructor; [by apply IH|].
  rewrite Forall_forall in Hall |- *. intros z Hz.
  apply Hall. by eapply py_remove_subseteq.
Qed.

Lemma sorted_id l : StronglySorted Z.lt l → sorted l = l.
Proof.
  intros Hs. apply (StronglySorted_unique Z.le).
  - apply sorted_Sorted.
  - clear -Hs. induction Hs as [|x l Hs IH Hall]; constructor; [done|].
    eapply Forall_impl; [exact Hall|]. intros y Hy. simpl in Hy. lia.
  - apply sorted_perm.
Qed.

Lemma tens_in_cards (ps : list (nat * Z)) :
  tens_in ps = Z.of_nat (length (filter (λ c, rank_of c = 8) ps.*2)).
Proof.
  unfold tens_in. f_equal.
  induction ps as [|[s c] ps IH]; [done|].
  rewrite fmap_cons, !filter_cons. cbn [snd].
  destruct (decide (rank_of c = 8)); simpl; by rewrite IH.
Qed.

(** The cards of the four hands before a trick are its four cards and the
    cards of the hands after it. *)
Lemma trick_cards_perm a c1 c2 c3 (h0 h1 h2 h3 h0' h1' h2' h3' : list Z) :
  py_remove a h0 = Some h0' → py_remove c1 h1 = Some h1' →
  py_remove c2 h2 = Some h2' → py_remove c3 h3 = Some h3' →
  concat [h0; h1; h2; h3] ≡ₚ [a; c1; c2; c3] ++ concat [h0'; h1'; h2'; h3'].
Proof.
  intros Hr0 Hr1 Hr2 Hr3. cbn [concat]. rewrite !app_nil_r.
  rewrite (py_remove_perm _ _ _ Hr0), (py_remove_perm _ _ _ Hr1),
          (py_remove_perm _ _ _ Hr2), (py_remove_perm _ _ _ Hr3).
  cbn [app]. by rewrite <- !Permutation_middle.
Qed.

Lemma reset_state_cards seed (st : Env) :
  concat (hands (reset_state seed st)) ≡ₚ full_deck.
Proof.
  unfold reset_state. cbv zeta. cbn [hands concat]. rewrite app_nil_r.
  rewrite !sorted_perm, deal_split by apply shuffled_length.
  apply rng_shuffle_perm.
Qed.

Lemma CardsInv_init seed entropy : CardsInv (__init__ seed entropy).
Proof. split; simpl; [constructor|by repeat constructor|done]. Qed.

Lemma CardsInv_reset seed (st : Env) : CardsInv (reset_state seed st).
Proof.
  pose proof (reset_state_cards seed st) as Hperm.
  assert (Hnd : NoDup (concat (hands (reset_state seed st)))).
  { rewrite Hperm. apply NoDup_seqZ. }
  split; [done| |].
  - unfold reset_state in *. cbv zeta in *. cbn [hands concat] in *.
    rewrite app_nil_r in Hnd.
    apply NoDup_app in Hnd as (N0 & _ & Hnd).
    apply NoDup_app in Hnd as (N1 & _ & Hnd).
    apply NoDup_app in Hnd as (N2 & _ & N3).
    repeat apply Forall_cons_2; [..|done];
      (apply StronglySorted_le_lt; [done|apply sorted_Sorted]).
  - intros _. exists 0, 0. split_and!; [done..|].
    unfold tens_held. rewrite Hperm. done.
Qed.

Lemma CardsInv_step a (st : Env) r st' :
  Inv st → CardsInv st → step_case a st r st' → CardsInv st'.
Proof.
  intros HI [Hnd Hsorted Htens] Hcase.
  destruct Hcase as [ | |h0 h1 h2 h3 h0' h1' h2' h3' c1 c2 c3 g' cp' w v u
    Hd Hhs Hr0 Hr1 Hr2 Hr3 _ _ _ _ _ Hv Hu tw' tn' d']; [done..|].
  pose proof (trick_cards_perm _ _ _ _ _ _ _ _ _ _ _ _ Hr0 Hr1 Hr2 Hr3) as Hperm.
  rewrite Hhs in Hnd, Hsorted, Htens.
  split; cbn [hands tens_won _dealt].
  - rewrite Hperm in Hnd. by apply NoDup_app in Hnd as (_ & _ & ?).
  - apply Forall_cons in Hsorted as [S0 Hsorted].
    apply Forall_cons in Hsorted as [S1 Hsorted].
    apply Forall_cons in Hsorted as [S2 Hsorted].
    apply Forall_cons in Hsorted as [S3 _].
    repeat apply Forall_cons_2; [..|done]; by eapply py_remove_StronglySorted.
  - intros Hdl. destruct (Htens Hdl) as (na & nb & Hna & Hnb & Hsum).
    assert (Hheld : tens_held [h0; h1; h2; h3]
                    = tens_in (trick_of a c1 c2 c3) + tens_held [h0'; h1'; h2'; h3']).
    { rewrite tens_in_cards. unfold tens_held. rewrite Hperm.
      rewrite filter_app, length_app. unfold trick_of. cbn [fmap list_fmap snd]. lia. }
    subst tn'. destruct (team_of_cases w.1) as [Hw|Hw]; rewrite Hw in *.
    + assert (u = na) as -> by congruence.
      exists (na + tens_in (trick_of a c1 c2 c3)), nb.
      rewrite lookup_insert_eq, lookup_insert_ne by done.
      split_and!; [done..|lia].
    + assert (u = nb) as -> by congruence.
      exists na, (nb + tens_in (trick_of a c1 c2 c3)).
      rewrite lookup_insert_eq, lookup_insert_ne by done.
      split_and!; [done..|lia].
Qed.

Lemma reachable_CardsInv (st : Env) : reachable st → CardsInv st.
Proof.
  induction 1 as [seed entropy|seed st _ IH|a st Hreach IH].
  - apply CardsInv_init.
  - rewrite reset_total. apply CardsInv_reset.
  - eapply CardsInv_step; [by apply reachable_Inv|exact IH|].
    by apply step_cases, reachable_Inv.
Qed.

(** X8. The cards of a reachable state: there are four hands, together
    they hold no card twice, and each hand is in strictly ascending order,
    holds identifiers of the 52 cards only and, once cards were dealt, has
    13 cards less one for each round played. *)
Theorem reachable_cards (st : Env) :
  reachable st →
  length (hands st) = 4%nat
  ∧ NoDup (concat (hands st))
  ∧ Forall (λ h, StronglySorted Z.lt h
                 ∧ Forall valid_card h
                 ∧ (_dealt st = true →
                    Z.of_nat (length h) = 13 - _rounds_played st))
           (hands st).
Proof.
  intros Hreach.
  destruct (reachable_CardsInv st Hreach) as [Hnd Hsorted _].
  destruct (reachable_Inv st Hreach)
    as [(h0 & h1 & h2 & h3 & Hhs & Hl1 & Hl2 & Hl3) Hvalid _ _ _ _ _ Hrnd].
  split_and!; [by rewrite Hhs|done|].
  assert (Hlen : _dealt st = true → Z.of_nat (length h0) = 13 - _rounds_played st).
  { intros Hdl. destruct (Hrnd Hdl) as (k & Hk & Hsum).
    rewrite Hhs in Hk. injection Hk as <-. lia. }
  rewrite Hhs in *. rewrite !Forall_forall in *. intros h Hh.
  split_and!; [by apply Hsorted|by apply Hvalid|].
  intros Hdl. specialize (Hlen Hdl).
  repeat (apply elem_of_cons in Hh as [->|Hh]); [lia..|by apply elem_of_nil in Hh].
Qed.

(** X9. The four tens are conserved: in every reachable state after a
    deal, the tens captured by the two teams and the tens still held in
    the hands are four together, so the two [tens_won] counters add up to
    4 when the episode is done. *)
Theorem tens_conserved (st : Env) :
  reachable st → _dealt st = true →
  ∃ a b,
    tens_won st !! 0%nat = Some a ∧ tens_won st !! 1%nat = Some b
    ∧ a + b + tens_held (hands st) = 4
    ∧ (done st = true → a + b = 4).
Proof.
  intros Hreach Hdl.
  destruct (cards_tens st (reachable_CardsInv st Hreach) Hdl)
    as (a & b & Ha & Hb & Hsum).
  pose proof (reachable_Inv st Hreach) as HI.
  exists a, b. split_and!; [done..|].
  intros Hd. apply (inv_done st HI) in Hd as [_ Hnil].
  destruct (inv_hands st HI) as (h0 & h1 & h2 & h3 & Hhs & Hl1 & Hl2 & Hl3).
  rewrite Hhs in Hnil. injection Hnil as ->.
  destruct h1, h2, h3; try done. rewrite Hhs in Hsum.
  change (tens_held [[]; []; []; []]) with 0 in Hsum. lia.
Qed.

Lemma max_from_first {A} (key : A → Z) b l :
  (∀ x, x ∈ l → key x ≤ key b) → max_from key b l = b.
Proof.
  induction l as [|x l IH]; intros Hle; simpl; [done|].
  assert (key x ≤ key b) by (apply Hle; by left).
  destruct (Z.ltb_spec (key b) (key x)); [lia|].
  apply IH. intros y Hy. apply Hle. by right.
Qed.

(** X10. Leading the highest card wins the trick: in every reachable
    state, if the agent submits a card it holds and the card is an ace
    (rank value 12) or no card held by another seat outranks it, [step]
    returns reward [1.0] and it is team 0's [tricks_won] counter that goes
    up (on equal ranks the agent wins, its play being the first). *)
Theorem highest_card_wins (st : Env) a :
  reachable st → holds st 0 a →
  (rank_of a = 12
   ∨ ∀ pid h c, pid ≠ 0%nat → hands st !! pid = Some h → c ∈ h →
       rank_of c ≤ rank_of a) →
  ∃ res st' n,
    step a st = (Ok res, st')
    ∧ res_reward res = 1.0%float
    ∧ tricks_won st !! 0%nat = Some n
    ∧ tricks_won st' = <[0%nat:=n + 1]> (tricks_won st).
Proof.
  intros Hreach (k & Hk & Ha) Hhigh.
  assert (Hle : ∀ pid h c, pid ≠ 0%nat → hands st !! pid = Some h → c ∈ h →
                  rank_of c ≤ rank_of a).
  { destruct Hhigh as [Hace|?]; [|done]. intros pid h c _ _ _.
    rewrite Hace. unfold rank_of. pose proof (Z.mod_pos_bound c 13). lia. }
  pose proof (reachable_Inv st Hreach) as HI.
  pose proof (step_cases a st HI) as Hcase.
  destruct (step a st) as [r st'] eqn:Hstep. cbn [fst snd] in Hcase.
  destruct Hcase as [Hd|h0 Hd Hh0 Hout|h0 h1 h2 h3 h0' h1' h2' h3' c1 c2 c3 g' cp'
    w v u Hd Hhs Hr0 Hr1 Hr2 Hr3 _ _ _ _ Hw Hv _ tw' tn' d'].
  - apply (inv_done st HI) in Hd as [_ Hnil]. rewrite Hnil in Hk.
    injection Hk as <-. by apply elem_of_nil in Ha.
  - rewrite Hh0 in Hk. by injection Hk as <-.
  - assert (Hmax : max_from (λ pc : nat * Z, rank_of pc.2) (0%nat, a)
                     [(1%nat, c1); (2%nat, c2); (3%nat, c3)] = (0%nat, a)).
    { apply max_from_first. rewrite Hhs in Hle. intros x Hx.
      repeat (apply elem_of_cons in Hx as [->|Hx]);
        [..|by apply elem_of_nil in Hx]; cbn [snd].
      - apply (Hle 1%nat h1); [done..|]. by eapply py_remove_elem.
      - apply (Hle 2%nat h2); [done..|]. by eapply py_remove_elem.
      - apply (Hle 3%nat h3); [done..|]. by eapply py_remove_elem. }
    change (py_max (λ pc : nat * Z, rank_of pc.2) (trick_of a c1 c2 c3))
      with (Some (max_from (λ pc : nat * Z, rank_of pc.2) (0%nat, a)
                    [(1%nat, c1); (2%nat, c2); (3%nat, c3)])) in Hw.
    rewrite Hmax in Hw. injection Hw as <-.
    change (team_of (0%nat, a).1) with 0%nat in *.
    eexists _, _, v. split; [reflexivity|]. by split_and!.
Qed.

(** X11. What [step] hands back after a trick: in every reachable state
    in which the agent holds the card it submits, [step] returns; the
    agent's new hand is its former hand without that card, and the
    observation shows exactly this hand, its size as [remaining_tricks],
    an empty current trick led by seat 0 with seat 0 to play, and the
    counters of the state; [remaining_tricks] and the two [tricks_won]
    entries add up to 13; [terminated] is the [done] flag and is set
    exactly when no trick remains; [truncated] is false and [info]
    empty. *)
Theorem step_observation (st : Env) a :
  reachable st → holds st 0 a →
  ∃ res st' h0 h0' x y,
    step a st = (Ok res, st')
    ∧ hands st !! 0%nat = Some h0
    ∧ py_remove a h0 = Some h0'
    ∧ hands st' !! 0%nat = Some h0'
    ∧ obs_hand (res_obs res) = h0'
    ∧ obs_remaining_tricks (res_obs res) = length h0'
    ∧ obs_current_trick (res_obs res) = []
    ∧ obs_trick_leader (res_obs res) = Some 0%nat
    ∧ obs_current_player (res_obs res) = 0%nat
    ∧ obs_tricks_won (res_obs res) = tricks_won st'
    ∧ obs_tens_won (res_obs res) = tens_won st'
    ∧ tricks_won st' !! 0%nat = Some x ∧ tricks_won st' !! 1%nat = Some y
    ∧ Z.of_nat (obs_remaining_tricks (res_obs res)) + x + y = 13
    ∧ res_terminated res = done st'
    ∧ (res_terminated res = true ↔ obs_remaining_tricks (res_obs res) = 0%nat)
    ∧ res_truncated res = false
    ∧ res_info res = ∅.
Proof.
  intros Hreach (k & Hk & Ha).
  pose proof (reachable_Inv st Hreach) as HI.
  pose proof (step_cases a st HI) as Hcase.
  pose proof (step_case_Inv _ _ _ _ HI Hcase) as HI'.
  pose proof (CardsInv_step _ _ _ _ HI (reachable_CardsInv st Hreach) Hcase) as HC'.
  assert (Hdealt : _dealt st = true).
  { apply not_false_iff_true. intros E.
    pose proof (inv_undealt st HI E) as Hnil. rewrite Hk in Hnil.
    injection Hnil as ->. by apply elem_of_nil in Ha. }
  destruct (step a st) as [r st'] eqn:Hstep. cbn [fst snd] in *.
  destruct Hcase as [Hd|h0 Hd Hh0 Hout|h0 h1 h2 h3 h0' h1' h2' h3' c1 c2 c3 g' cp'
    w v u Hd Hhs Hr0 Hr1 Hr2 Hr3 _ _ _ _ Hw Hv _ tw' tn' d'].
  - apply (inv_done st HI) in Hd as [_ Hnil]. rewrite Hnil in Hk.
    injection Hk as <-. by apply elem_of_nil in Ha.
  - rewrite Hh0 in Hk. by injection Hk as <-.
  - destruct (inv_tricks _ HI') as (x & y & Hx & Hy & _ & _ & Hsum).
    destruct (inv_rounds _ HI' Hdealt) as (k' & Hk' & Hrounds).
    pose proof (cards_sorted _ HC') as Hsorted.
    cbn [hands tricks_won _rounds_played] in Hx, Hy, Hsum, Hk', Hrounds, Hsorted.
    injection Hk' as <-.
    apply Forall_cons in Hsorted as [S0 _].
    eexists _, _, h0, h0', x, y. split; [reflexivity|].
    cbn [res_obs obs_hand obs_remaining_tricks obs_current_trick obs_trick_leader
         obs_current_player obs_tricks_won obs_tens_won res_terminated
         res_truncated res_info hands tricks_won tens_won done].
    split_and!; try done.
    + by rewrite Hhs.
    + by apply sorted_id.
    + lia.
    + subst d'. by destruct (decide (length h0' = 0%nat)).
Qed.

(** X12. [reset] cannot fail, whatever state the object is in (an episode
    in progress or finished, or no deal yet) and with or without a seed:
    it returns an observation of a fresh episode, with the 13 cards of the
    agent's new hand, 13 remaining tricks, an empty trick led by seat 0 and
    all four counters at zero, and it leaves [done] cleared and no round
    played.  Without a seed the deal continues the object's generator;
    with one it restarts it. *)
Theorem reset_observation (seed : option Z) (st : Env) :
  ∃ obs st',
    reset seed st = (Ok obs, st')
    ∧ hands st' !! 0%nat = Some (obs_hand obs)
    ∧ length (obs_hand obs) = 13%nat
    ∧ obs_remaining_tricks obs = 13%nat
    ∧ obs_current_trick obs = []
    ∧ obs_trick_leader obs = Some 0%nat
    ∧ obs_current_player obs = 0%nat
    ∧ (∀ team, (team < 2)%nat →
         obs_tricks_won obs !! team = Some 0 ∧ obs_tens_won obs !! team = Some 0)
    ∧ done st' = false ∧ _dealt st' = true ∧ _rounds_played st' = 0
    ∧ rng st' = (rng_shuffle
                   (match seed with Some s => rng_seed s | None => rng st end)
                   full_deck).2.
Proof.
  destruct (reset_spec seed st) as (h0 & Hh0 & Hreset).
  pose proof (cards_sorted _ (CardsInv_reset seed st)) as Hsorted.
  destruct (inv_rounds _ (Inv_reset seed st) eq_refl) as (k & Hk & Hlen).
  rewrite Hh0 in Hk. injection Hk as <-.
  assert (S0 : StronglySorted Z.lt h0).
  { rewrite Forall_forall in Hsorted. apply Hsorted.
    by eapply list_elem_of_lookup_2. }
  eexists _, _. split; [exact Hreset|].
  cbn [obs_hand obs_remaining_tricks obs_current_trick obs_trick_leader
       obs_current_player obs_tricks_won obs_tens_won].
  rewrite (sorted_id _ S0).
  change (_rounds_played (reset_state seed st)) with 0 in Hlen.
  split_and!; try done; try lia.
  intros [|[|team]] Hteam; [done..|lia].
Qed.

(** ** Rendering *)

Lemma or_raise_state {A} e (o : option A) (st : Env) : (or_raise e o st).2 = st.
Proof. by destruct o. Qed.


Lemma mapM_card_str_valid (h : list Z) :
  Forall valid_card h → is_Some (mapM card_str h).
Proof.
  intros Hall. apply mapM_is_Some. eapply Forall_impl; [exact Hall|].
  intros c Hc. by apply card_str_valid.
Qed.

Lemma render_Inv (st : Env) :
  Inv st →
  ∃ lines,
    render st = (Ok lines, st)
    ∧ length lines = (if current_trick st is Some _ then 5 else 4)%nat.
Proof.
  intros [(h0 & h1 & h2 & h3 & Hhs & _) Hvalid Htr
          (ta & tb & Hta & Htb & _) (na & nb & Hna & Hnb & _) _ _ _].
  assert (Hh0 : hands st !! 0%nat = Some h0) by (by rewrite Hhs).
  destruct (mapM_card_str_valid h0) as [cards Hcards].
  { rewrite Hhs in Hvalid. by apply Forall_cons in Hvalid as [? _]. }
  unfold render. repeat mstep.
  destruct Htr as [-> | ->].
  - repeat mstep. eexists. by split.
  - cbn [plays fresh_trick mapM]. repeat mstep. eexists. by split.
Qed.


(** ** The driver scripts *)

Lemma float_of_Z_step n :
  -13 ≤ n ≤ 13 →
  (float_of_Z n + 1.0 = float_of_Z (n + 1))%float
  ∧ (float_of_Z n + -1.0 = float_of_Z (n - 1))%float.
Proof.
  intros Hn. assert (Hin : n ∈ seqZ (-13) 27) by (apply elem_of_seqZ; lia).
  clear Hn. revert n Hin. apply Forall_forall.
  let l := eval vm_compute in (seqZ (-13) 27) in change (seqZ (-13) 27) with l.
  repeat (apply Forall_cons_2; [split; reflexivity|]). apply Forall_nil_2.
Qed.

Lemma py_max_elem {A} (key : A → Z) l x : py_max key l = Some x → x ∈ l.
Proof.
  destruct l as [|b l]; intros [= <-].
  destruct (max_from_spec key b l) as (i & Hi & _).
  by eapply list_elem_of_lookup_2.
Qed.

(** One iteration of a driver's loop with an action from the observed
    hand. *)
Lemma episode_step (st : Env) obs total a :
  in_episode st obs total → done st = false → a ∈ obs_hand obs →
  ∃ r st',
    step a st = (Ok r, st')
    ∧ in_episode st' (res_obs r) (total + res_reward r)%float
    ∧ res_terminated r || res_truncated r = done st'
    ∧ _rounds_played st' = _rounds_played st + 1.
Proof.
  intros (HI & HC & Hdl & _ & Hh0 & _ & _ & x & y & Hx & Hy & ->) Hd Ha.
  pose proof (step_cases a st HI) as Hcase.
  pose proof (step_case_Inv _ _ _ _ HI Hcase) as HI'.
  pose proof (CardsInv_step _ _ _ _ HI HC Hcase) as HC'.
  destruct (inv_tricks st HI) as (x0 & y0 & Hx0 & Hy0 & ? & ? & Hsum).
  assert (x0 = x) as -> by congruence. assert (y0 = y) as -> by congruence.
  destruct (inv_rounds st HI Hdl) as (k & Hk & Hrounds).
  destruct (step a st) as [r st'] eqn:Hstep. cbn [fst snd] in *.
  destruct Hcase as [Hd'|h0 Hd' Hh0' Hout|h0 h1 h2 h3 h0' h1' h2' h3' c1 c2 c3 g' cp'
    w v u _ Hhs Hr0 Hr1 Hr2 Hr3 _ _ _ _ Hw Hv _ tw' tn' d']; [congruence| |].
  { rewrite Hh0 in Hh0'. by injection Hh0' as <-. }
  rewrite Hhs in Hh0, Hk. injection Hk as <-.
  pose proof (py_remove_length _ _ _ Hr0) as Hlen.
  pose proof (cards_sorted _ HC') as Hsorted. cbn [hands] in Hsorted.
  apply Forall_cons in Hsorted as [S0 _].
  eexists _, _. split; [reflexivity|].
  cbn [res_obs res_reward res_terminated res_truncated done _rounds_played].
  split_and!; [|by rewrite orb_false_r|done].
  split_and!; try done.
  { cbn [hands obs_hand]. by rewrite sorted_id. }
  assert (-12 ≤ x - y ≤ 12) as Hrange by lia.
  destruct (float_of_Z_step (x - y) ltac:(lia)) as [Hup Hdown].
  subst tw'. cbn [tricks_won]. unfold compute_reward.
  destruct (team_of_cases w.1) as [Hteam|Hteam]; rewrite Hteam in *.
  - assert (v = x) as -> by congruence. exists (x + 1), y.
    rewrite lookup_insert_eq, lookup_insert_ne by done.
    split_and!; [done..|]. rewrite decide_True by done.
    rewrite Hup. f_equal. lia.
  - assert (v = y) as -> by congruence. exists x, (y + 1).
    rewrite lookup_insert_eq, lookup_insert_ne by done.
    split_and!; [done..|]. rewrite decide_False by done.
    rewrite Hdown. f_equal. lia.
Qed.

(** The observation [reset] returns starts an episode. *)
Lemma reset_in_episode seed (st : Env) :
  ∃ obs,
    reset seed st = (Ok obs, reset_state seed st)
    ∧ in_episode (reset_state seed st) obs 0.0%float.
Proof.
  destruct (reset_spec seed st) as (h0 & Hh0 & Hreset).
  pose proof (cards_sorted _ (CardsInv_reset seed st)) as Hsorted.
  assert (S0 : StronglySorted Z.lt h0).
  { rewrite Forall_forall in Hsorted. apply Hsorted.
    by eapply list_elem_of_lookup_2. }
  eexists. split; [exact Hreset|].
  split_and!; [apply Inv_reset|apply CardsInv_reset|done|done| |done|done|].
  - cbn [obs_hand]. by rewrite sorted_id.
  - by exists 0, 0.
Qed.

(** The state and the report at the end of an episode. *)
Lemma in_episode_done (st : Env) obs total :
  in_episode st obs total → done st = true →
  _rounds_played st = 13
  ∧ ∃ x y p q,
      obs_tricks_won obs !! 0%nat = Some x ∧ obs_tricks_won obs !! 1%nat = Some y
      ∧ 0 ≤ x ∧ 0 ≤ y ∧ x + y = 13
      ∧ total = float_of_Z (x - y)
      ∧ obs_tens_won obs !! 0%nat = Some p ∧ obs_tens_won obs !! 1%nat = Some q
      ∧ p + q = 4.
Proof.
  intros (HI & HC & Hdl & _ & Hh0 & -> & -> & x & y & Hx & Hy & ->) Hd.
  destruct (inv_tricks st HI) as (x0 & y0 & Hx0 & Hy0 & ? & ? & Hsum).
  assert (x0 = x) as -> by congruence. assert (y0 = y) as -> by congruence.
  destruct (inv_rounds st HI Hdl) as (k & Hk & Hrounds).
  pose proof (proj1 (inv_done st HI) Hd) as [_ Hnil].
  rewrite Hnil in Hk. injection Hk as <-. cbn [length] in Hrounds.
  destruct (cards_tens st HC Hdl) as (p & q & Hp & Hq & Htens).
  destruct (inv_hands st HI) as (h0 & h1 & h2 & h3 & Hhs & Hl1 & Hl2 & Hl3).
  rewrite Hhs in Hnil. injection Hnil as ->.
  destruct h1, h2, h3; try done. rewrite Hhs in Htens.
  change (tens_held [[]; []; []; []]) with 0 in Htens.
  split; [lia|]. exists x, y, p, q. split_and!; try done; lia.
Qed.

Lemma in_episode_rounds (st : Env) obs total :
  in_episode st obs total →
  0 ≤ _rounds_played st ≤ 13
  ∧ (done st = true ↔ _rounds_played st = 13)
  ∧ (done st = false → obs_hand obs ≠ []).
Proof.
  intros (HI & _ & Hdl & _ & Hh0 & _).
  destruct (inv_tricks st HI) as (x & y & _ & _ & ? & ? & Hsum).
  destruct (inv_rounds st HI Hdl) as (k & Hk & Hrounds).
  rewrite Hh0 in Hk. injection Hk as <-.
  pose proof (inv_done st HI) as Hdone. rewrite Hdl, Hh0 in Hdone.
  split_and!; [lia|lia| |].
  - rewrite Hdone. split.
    + intros [_ [= E]]. rewrite E in Hrounds. simpl in Hrounds. lia.
    + intros E. split; [done|]. f_equal. apply length_zero_iff_nil. lia.
  - intros Hd E. rewrite E in Hdone. destruct Hdone as [_ Hdone].
    rewrite Hdone in Hd; done.
Qed.

Lemma highest_loop_done fuel obs total (st : Env) :
  highest_loop fuel obs true total st = (Ok (Some (obs, total)), st).
Proof. by destruct fuel. Qed.

(** From a running episode with [n] rounds left the loop of run_highest.py
    ends after [n] iterations, in a state that does not depend on the
    bound. *)
Lemma highest_loop_spec (n : nat) (st : Env) obs total :
  in_episode st obs total →
  13 - _rounds_played st = Z.of_nat n →
  ∃ obs' total' st',
    in_episode st' obs' total' ∧ done st' = true
    ∧ (∀ fuel, (n ≤ fuel)%nat →
         highest_loop fuel obs (done st) total st = (Ok (Some (obs', total')), st'))
    ∧ (∀ fuel, (fuel < n)%nat →
         ∃ st'', highest_loop fuel obs (done st) total st = (Ok None, st'')).
Proof.
  revert st obs total. induction n as [|n IH]; intros st obs total Hep Hn;
    destruct (in_episode_rounds _ _ _ Hep) as (Hrange & Hdone & Hne).
  - assert (Hd : done st = true) by (apply Hdone; lia). rewrite Hd.
    exists obs, total, st. split_and!; [done..| |intros; lia].
    intros fuel _. apply highest_loop_done.
  - assert (Hd : done st = false).
    { destruct (done st) eqn:E; [|done]. destruct Hdone as [Hdone _].
      specialize (Hdone eq_refl). lia. }
    rewrite Hd.
    destruct (py_max rank_of (obs_hand obs)) as [a|] eqn:Hmax.
    2:{ destruct (obs_hand obs); [by destruct Hne|done]. }
    destruct (episode_step st obs total a Hep Hd (py_max_elem _ _ _ Hmax))
      as (r & st1 & Hstep & Hep1 & Hflag & Hrounds).
    destruct (IH st1 _ _ Hep1) as (obs' & total' & st' & Hep' & Hd' & Hrun & Hstop);
      [lia|].
    exists obs', total', st'. split_and!; [done..| |].
    + intros [|fuel] Hfuel; [lia|].
      cbn [highest_loop]. rewrite Hmax. repeat mstep.
      rewrite (bind_Ok _ _ _ _ _ Hstep), Hflag. apply Hrun. lia.
    + intros [|fuel] Hfuel; [by exists st|].
      cbn [highest_loop]. rewrite Hmax. repeat mstep.
      rewrite (bind_Ok _ _ _ _ _ Hstep), Hflag. apply Hstop. lia.
Qed.

(** X14. run_highest.py ends: whatever state the environment's generator
    starts in, the script resets the environment and its loop runs exactly
    13 times, no call raising (a bound of 13 iterations or more does not
    stop it and the run does not depend on it, a smaller bound stops it).
    At the end 13 rounds were played and [done] is set, the final
    [tricks_won] counters add up to 13 and the final [tens_won] counters
    to 4, and the total reward is the number of tricks of team 0 less that
    of team 1. *)
Theorem run_highest_terminates (entropy : G) :
  ∃ rep st' x y p q,
    (∀ fuel, (13 ≤ fuel)%nat →
       run_highest_main fuel entropy = (Ok (Some rep), st'))
    ∧ (∀ fuel, (fuel < 13)%nat →
         ∃ st'', run_highest_main fuel entropy = (Ok None, st''))
    ∧ done st' = true ∧ _rounds_played st' = 13
    ∧ rep_tricks_won rep !! 0%nat = Some x ∧ rep_tricks_won rep !! 1%nat = Some y
    ∧ 0 ≤ x ∧ 0 ≤ y ∧ x + y = 13
    ∧ rep_total_reward rep = float_of_Z (x - y)
    ∧ rep_tens_won rep !! 0%nat = Some p ∧ rep_tens_won rep !! 1%nat = Some q
    ∧ p + q = 4.
Proof.
  unfold run_highest_main.
  destruct (reset_in_episode None (__init__ None entropy)) as (obs & Hreset & Hep).
  set (st0 := reset_state None (__init__ None entropy)) in *.
  destruct (highest_loop_spec 13 st0 obs _ Hep eq_refl)
    as (obs' & total' & st' & Hep' & Hd' & Hrun & Hstop).
  change (done st0) with false in Hrun, Hstop.
  destruct (in_episode_done _ _ _ Hep' Hd')
    as (Hrounds & x & y & p & q & Hx & Hy & ? & ? & Hsum & Htotal & Hp & Hq & Htens).
  exists (mkReport [] total' (obs_tricks_won obs') (obs_tens_won obs')), st', x, y, p, q.
  split_and!; try done.
  - intros fuel Hfuel. rewrite (bind_Ok _ _ _ _ _ Hreset).
    by rewrite (bind_Ok _ _ _ _ _ (Hrun fuel Hfuel)).
  - intros fuel Hfuel. rewrite (bind_Ok _ _ _ _ _ Hreset).
    destruct (Hstop fuel Hfuel) as (st'' & Hnone).
    exists st''. by rewrite (bind_Ok _ _ _ _ _ Hnone).
Qed.

Lemma random_loop_done fuel grng obs total (st : Env) :
  random_loop fuel grng obs true total st = (Ok (Some (grng, obs, total)), st).
Proof. by destruct fuel. Qed.

(** The same for the loop of run_random.py. *)
Lemma random_loop_spec (n : nat) (st : Env) grng obs total :
  in_episode st obs total →
  13 - _rounds_played st = Z.of_nat n →
  ∃ grng' obs' total' st',
    in_episode st' obs' total' ∧ done st' = true
    ∧ (∀ fuel, (n ≤ fuel)%nat →
         random_loop fuel grng obs (done st) total st
         = (Ok (Some (grng', obs', total')), st'))
    ∧ (∀ fuel, (fuel < n)%nat →
         ∃ st'', random_loop fuel grng obs (done st) total st = (Ok None, st'')).
Proof.
  revert st grng obs total. induction n as [|n IH]; intros st grng obs total Hep Hn;
    destruct (in_episode_rounds _ _ _ Hep) as (Hrange & Hdone & Hne).
  - assert (Hd : done st = true) by (apply Hdone; lia). rewrite Hd.
    exists grng, obs, total, st. split_and!; [done..| |intros; lia].
    intros fuel _. apply random_loop_done.
  - assert (Hd : done st = false).
    { destruct (done st) eqn:E; [|done]. destruct Hdone as [Hdone _].
      specialize (Hdone eq_refl). lia. }
    rewrite Hd. specialize (Hne Hd).
    destruct (episode_step st obs total (rng_choice grng (obs_hand obs)).1 Hep Hd
                (rng_choice_elem _ _ Hne))
      as (r & st1 & Hstep & Hep1 & Hflag & Hrounds).
    destruct (IH st1 (rng_choice grng (obs_hand obs)).2 _ _ Hep1)
      as (grng' & obs' & total' & st' & Hep' & Hd' & Hrun & Hstop); [lia|].
    exists grng', obs', total', st'. split_and!; [done..| |].
    + intros [|fuel] Hfuel; [lia|].
      cbn [random_loop]. rewrite decide_False by done.
      rewrite (bind_Ok _ _ _ _ _ Hstep), Hflag. apply Hrun. lia.
    + intros [|fuel] Hfuel; [by exists st|].
      cbn [random_loop]. rewrite decide_False by done.
      rewrite (bind_Ok _ _ _ _ _ Hstep), Hflag. apply Hstop. lia.
Qed.

(** X15. run_random.py ends: whatever state the module's generator is in,
    the script's loop runs exactly 13 times, no call raising (every card
    it draws is in the agent's hand), and the final [render] returns its
    five lines.  At the end 13 rounds were played and [done] is set, the
    final [tricks_won] counters add up to 13 and the final [tens_won]
    counters to 4, and the total reward is the number of tricks of team 0
    less that of team 1. *)
Theorem run_random_terminates (grng : G) :
  ∃ rep st' x y p q,
    (∀ fuel, (13 ≤ fuel)%nat →
       run_random_main fuel grng = (Ok (Some rep), st'))
    ∧ (∀ fuel, (fuel < 13)%nat →
         ∃ st'', run_random_main fuel grng = (Ok None, st''))
    ∧ done st' = true ∧ _rounds_played st' = 13
    ∧ length (rep_render rep) = 5%nat
    ∧ rep_tricks_won rep !! 0%nat = Some x ∧ rep_tricks_won rep !! 1%nat = Some y
    ∧ 0 ≤ x ∧ 0 ≤ y ∧ x + y = 13
    ∧ rep_total_reward rep = float_of_Z (x - y)
    ∧ rep_tens_won rep !! 0%nat = Some p ∧ rep_tens_won rep !! 1%nat = Some q
    ∧ p + q = 4.
Proof.
  unfold run_random_main.
  destruct (reset_in_episode None (__init__ (Some 123) grng)) as (obs & Hreset & Hep).
  set (st0 := reset_state None (__init__ (Some 123) grng)) in *.
  destruct (random_loop_spec 13 st0 grng obs _ Hep eq_refl)
    as (grng' & obs' & total' & st' & Hep' & Hd' & Hrun & Hstop).
  change (done st0) with false in Hrun, Hstop.
  destruct (in_episode_done _ _ _ Hep' Hd')
    as (Hrounds & x & y & p & q & Hx & Hy & ? & ? & Hsum & Htotal & Hp & Hq & Htens).
  assert (Hrender : ∃ lines, render st' = (Ok lines, st') ∧ length lines = 5%nat).
  { destruct (render_Inv st') as (lines & Hrender & Hlen); [apply Hep'|].
    destruct Hep' as (_ & _ & _ & Htrick & _). rewrite Htrick in Hlen.
    by exists lines. }
  destruct Hrender as (lines & Hrender & Hlines).
  exists (mkReport lines total' (obs_tricks_won obs') (obs_tens_won obs')), st', x, y, p, q.
  split_and!; try done.
  - intros fuel Hfuel. rewrite (bind_Ok _ _ _ _ _ Hreset).
    rewrite (bind_Ok _ _ _ _ _ (Hrun fuel Hfuel)).
    by rewrite (bind_Ok _ _ _ _ _ Hrender).
  - intros fuel Hfuel. rewrite (bind_Ok _ _ _ _ _ Hreset).
    destruct (Hstop fuel Hfuel) as (st'' & Hnone).
    exists st''. by rewrite (bind_Ok _ _ _ _ _ Hnone).
Qed.

(** The states a sequence of [step] calls goes through are reachable. *)
Lemma run_reachable actions (st : Env) : reachable st → reachable (run actions st).2.
Proof.
  revert st. induction actions as [|a rest IH]; intros st Hreach; [done|].
  cbn [run]. pose proof (reach_step a st Hreach) as Hnext.
  destruct (step a st) as [[r|e] st1] eqn:Hs; cbn [snd] in Hnext.
  - rewrite (bind_Ok _ _ _ _ _ Hs). specialize (IH st1 Hnext).
    destruct (run rest st1) as [[rs|e] st2] eqn:Hr; cbn [snd] in IH.
    + by rewrite (bind_Ok _ _ _ _ _ Hr).
    + by rewrite (bind_Raise _ _ _ _ _ Hr).
  - by rewrite (bind_Raise _ _ _ _ _ Hs).
Qed.

End Proofs.

(** * The specification on concrete runs

    The theorems applied to the reference generator and the concrete states
    defined with it. *)

Example card_str_ten_of_diamonds : card_str 21 = Some "10D"%string.
Proof. reflexivity. Qed.

Example card_str_negative_index : card_str (-1) = Some "AS"%string.
Proof. reflexivity. Qed.

Example card_str_out_of_range : card_str 52 = None.
Proof. reflexivity. Qed.

Example demo_deal :
  hands demo_start =
    [[1; 3; 4; 11; 13; 18; 31; 32; 34; 36; 38; 47; 50];
     [2; 5; 9; 14; 17; 20; 26; 27; 30; 35; 39; 42; 43];
     [7; 12; 16; 19; 22; 24; 28; 40; 41; 45; 48; 49; 51];
     [0; 6; 8; 10; 15; 21; 23; 25; 29; 33; 37; 44; 46]].
Proof. vm_compute. reflexivity. Qed.

(** The first play of maximal rank wins: seat 1's ten, not seat 2's. *)
Example demo_tie_break :
  py_max (λ pc : nat * Z, rank_of pc.2) (plays demo_trick) = Some (1%nat, 21).
Proof. reflexivity. Qed.

(** Seat 1 submits its diamond; the 3 of clubs is recorded in its place and
    the diamond goes back to the end of the hand. *)
Example demo_enforcer_overrides :
  _play_card 1 14 demo_follow =
    (Ok true,
     mkEnv 1 [[4]; [5; 14]; [20]; [30]] zero_counters zero_counters
           (Some (mkTrick 0 [(0%nat, 0); (1%nat, 1)])) 2 false true 0).
Proof. vm_compute. reflexivity. Qed.

(** The whole episode: 13 tricks, 10 for team 0 and 3 for team 1, the four
    tens all taken by team 0. *)
Example demo_episode :
  let st := (run demo_actions demo_start).2 in
  done st = true
  ∧ hands st = [[]; []; []; []]
  ∧ _rounds_played st = 13
  ∧ tricks_won st !! 0%nat = Some 10 ∧ tricks_won st !! 1%nat = Some 3
  ∧ tens_won st !! 0%nat = Some 4 ∧ tens_won st !! 1%nat = Some 0.
Proof. vm_compute. by split_and!. Qed.

Lemma demo_start_reachable : reachable demo_start.
Proof. exact (reach_reset None _ (reach_init (Some 7) 0)). Qed.

Lemma demo_start_holds : holds demo_start 0 3.
Proof.
  exists [1; 3; 4; 11; 13; 18; 31; 32; 34; 36; 38; 47; 50].
  split; [vm_compute; reflexivity|]. right. left.
Qed.

Lemma demo_scorable : scorable demo_scoring demo_trick.
Proof.
  split_and!; [reflexivity|reflexivity|by eexists|].
  intros [|[|team]] Hteam; [split; by eexists..|lia].
Qed.

Lemma demo_run_Ok : is_Ok (run demo_actions demo_start).1.
Proof. eexists. vm_compute. reflexivity. Qed.

Lemma codec_round_trip_witness :
  0 ≤ 37 < 52 ∧ encode_card (decode_card 37).1 (decode_card 37).2 = 37.
Proof.
  assert (H : 0 ≤ 37 < 52) by lia.
  split; [exact H|]. apply (codec_round_trip 37 H).
Defined.

Lemma suit_following_witness :
  (_play_card 1 14 demo_follow = (Ok true, (_play_card 1 14 demo_follow).2)
   ∧ ∃ c h h',
       current_trick (_play_card 1 14 demo_follow).2
         = Some (mkTrick 0 ([(0%nat, 0)] ++ [(1%nat, c)]))
       ∧ hands demo_follow !! 1%nat = Some h
       ∧ hands (_play_card 1 14 demo_follow).2 !! 1%nat = Some h'
       ∧ (suit_of c = suit_of 0
          ∨ (∀ x, x ∈ h → suit_of x ≠ suit_of 0)
            ∧ (∀ x, x ∈ h' → suit_of x ≠ suit_of 0)))
  ∧ (reachable demo_start ∧ holds demo_start 0 3
     ∧ ∃ flags st1 t,
         step_plays 3 demo_start = (Ok flags, st1)
         ∧ current_trick st1 = Some t
         ∧ length (plays t) = 4%nat
         ∧ head (plays t) = Some (leader t, 3)
         ∧ ∀ s c, (s, c) ∈ plays t → s ≠ leader t →
             ∃ h, hands demo_start !! s = Some h ∧ c ∈ h
                  ∧ (suit_of c = suit_of 3
                     ∨ ∀ x, x ∈ h → suit_of x ≠ suit_of 3)).
Proof.
  assert (Hrun : _play_card 1 14 demo_follow
                 = (Ok true, (_play_card 1 14 demo_follow).2))
    by (vm_compute; reflexivity).
  split.
  - split; [exact Hrun|].
    exact (proj1 (@suit_following Z RefRng_Random) demo_follow 1%nat 14 true _
             (mkTrick 0 [(0%nat, 0)]) (0%nat, 0) eq_refl eq_refl Hrun).
  - split; [exact demo_start_reachable|]. split; [exact demo_start_holds|].
    exact (proj2 (@suit_following Z RefRng_Random) demo_start 3
             demo_start_reachable demo_start_holds).
Defined.

Lemma revert_branch_unreachable_witness :
  reachable demo_start ∧ holds demo_start 0 3
  ∧ ∃ st1, step_plays 3 demo_start = (Ok [false; false; false; false], st1).
Proof.
  split; [exact demo_start_reachable|]. split; [exact demo_start_holds|].
  destruct (revert_branch_unreachable demo_start 3
              demo_start_reachable demo_start_holds)
    as (res & st' & st1 & h0 & h1 & h2 & h3 & h0' & h1' & h2' & h3'
        & c1 & c2 & c3 & _ & Hplays & _).
  exists st1. exact Hplays.
Defined.

Lemma step_failures_witness :
  (done (run demo_actions demo_start).2 = true
   ∧ step 0 (run demo_actions demo_start).2
     = (Raise EpisodeFinished, (run demo_actions demo_start).2))
  ∧ (done demo_start = false
     ∧ (0 ∉ [1; 3; 4; 11; 13; 18; 31; 32; 34; 36; 38; 47; 50])
     ∧ step 0 demo_start = (Raise InvalidAction, demo_start))
  ∧ (reachable demo_start
     ∧ step 0 demo_start = (Raise InvalidAction, demo_start)
     ∧ ¬ holds demo_start 0 0).
Proof.
  assert (Hd : done (run demo_actions demo_start).2 = true)
    by (vm_compute; reflexivity).
  assert (Hd0 : done demo_start = false) by reflexivity.
  assert (Hh0 : hands demo_start !! 0%nat
                = Some [1; 3; 4; 11; 13; 18; 31; 32; 34; 36; 38; 47; 50])
    by (vm_compute; reflexivity).
  assert (Hout : 0 ∉ [1; 3; 4; 11; 13; 18; 31; 32; 34; 36; 38; 47; 50]).
  { apply (bool_decide_unpack _). vm_compute. exact I. }
  pose proof (proj1 (proj2 (step_failures demo_start 0)) _ Hd0 Hh0 Hout) as Hinv.
  split_and!.
  - exact Hd.
  - exact (proj1 (step_failures (run demo_actions demo_start).2 0) Hd).
  - exact Hd0.
  - exact Hout.
  - exact Hinv.
  - exact demo_start_reachable.
  - exact Hinv.
  - destruct (proj2 (proj2 (step_failures demo_start 0)) demo_start_reachable
                _ _ Hinv) as [_ [[He _]|(_ & _ & Hno)]]; [discriminate He|exact Hno].
Defined.

Lemma trick_winner_witness :
  scorable demo_scoring demo_trick
  ∧ ∃ (i : nat) seat card n reward st',
      _end_trick_and_score demo_scoring = (Ok reward, st')
      ∧ plays demo_trick !! i = Some (seat, card)
      ∧ (∀ s c, (s, c) ∈ plays demo_trick → rank_of c ≤ rank_of card)
      ∧ (∀ (j : nat) s c, (j < i)%nat → plays demo_trick !! j = Some (s, c) →
           rank_of c < rank_of card)
      ∧ team_of seat = (if decide (seat = 0 ∨ seat = 2)%nat then 0 else 1)%nat
      ∧ tricks_won demo_scoring !! team_of seat = Some n
      ∧ tricks_won st' = <[team_of seat:=n + 1]> (tricks_won demo_scoring).
Proof.
  split; [exact demo_scorable|].
  exact (trick_winner demo_scoring demo_trick demo_scorable).
Defined.

Lemma tens_scoring_witness :
  (scorable demo_scoring demo_trick
   ∧ ∃ winner n reward st',
       py_max (λ pc : nat * Z, rank_of pc.2) (plays demo_trick) = Some winner
       ∧ _end_trick_and_score demo_scoring = (Ok reward, st')
       ∧ tens_won demo_scoring !! team_of winner.1 = Some n
       ∧ tens_won st' !! team_of winner.1 =
           Some (n + Z.of_nat (length
                   (filter (λ pc : nat * Z, rank_of pc.2 = 8) (plays demo_trick))))
       ∧ ∀ other, other ≠ team_of winner.1 →
           tens_won st' !! other = tens_won demo_scoring !! other
           ∧ tricks_won st' !! other = tricks_won demo_scoring !! other)
  ∧ (reachable demo_start ∧ (0 < 2)%nat
     ∧ ∃ v v' n n',
         tricks_won demo_start !! 0%nat = Some v
         ∧ tricks_won (step 3 demo_start).2 !! 0%nat = Some v'
         ∧ tens_won demo_start !! 0%nat = Some n
         ∧ tens_won (step 3 demo_start).2 !! 0%nat = Some n'
         ∧ v ≤ v' ∧ n ≤ n').
Proof.
  assert (Hlt : (0 < 2)%nat) by lia.
  split.
  - split; [exact demo_scorable|].
    exact (proj1 (@tens_scoring Z RefRng_Random) demo_scoring demo_trick demo_scorable).
  - split; [exact demo_start_reachable|]. split; [exact Hlt|].
    exact (proj2 (@tens_scoring Z RefRng_Random) demo_start 3 0%nat
             demo_start_reachable Hlt).
Defined.

Lemma episode_termination_witness :
  is_Ok (run demo_actions (reset None (__init__ (Some 7) 0)).2).1
  ∧ done (run demo_actions (reset None (__init__ (Some 7) 0)).2).2 = true
  ∧ ∀ a, step a (run demo_actions (reset None (__init__ (Some 7) 0)).2).2
         = (Raise EpisodeFinished,
            (run demo_actions (reset None (__init__ (Some 7) 0)).2).2).
Proof.
  split; [exact demo_run_Ok|].
  destruct (episode_termination None (__init__ (Some 7) 0) demo_actions demo_run_Ok)
    as (_ & Hdone & _ & Hfail & _).
  assert (Hd : done (run demo_actions (reset None (__init__ (Some 7) 0)).2).2 = true)
    by (apply Hdone; reflexivity).
  split; [exact Hd|exact (Hfail Hd)].
Defined.

Lemma reward_and_trick_count_witness :
  (reachable demo_start ∧ holds demo_start 0 3
   ∧ ∃ res st', step 3 demo_start = (Ok res, st') ∧ res_reward res = 1.0%float)
  ∧ (is_Ok (run demo_actions (reset None (__init__ (Some 7) 0)).2).1
     ∧ ∃ a b,
         tricks_won (run demo_actions (reset None (__init__ (Some 7) 0)).2).2
           !! 0%nat = Some a
         ∧ tricks_won (run demo_actions (reset None (__init__ (Some 7) 0)).2).2
             !! 1%nat = Some b
         ∧ a + b = 13)
  ∧ (reachable demo_start
     ∧ ∃ a b,
         tricks_won demo_start !! 0%nat = Some a
         ∧ tricks_won demo_start !! 1%nat = Some b
         ∧ a + b = _rounds_played demo_start).
Proof.
  split_and!.
  - exact demo_start_reachable.
  - exact demo_start_holds.
  - destruct (proj1 (@reward_and_trick_count Z RefRng_Random) demo_start 3
                demo_start_reachable demo_start_holds)
      as (res & st' & flags & st1 & t & w & n & Hstep & _).
    exists res, st'. split; [exact Hstep|].
    assert (Hr : res_reward (match (step 3 demo_start).1 with
                             | Ok r => r
                             | Raise _ => res
                             end) = 1.0%float) by (vm_compute; reflexivity).
    rewrite Hstep in Hr. exact Hr.
  - exact demo_run_Ok.
  - destruct (proj1 (proj2 (@reward_and_trick_count Z RefRng_Random)) None
                (__init__ (Some 7) 0) demo_actions demo_run_Ok)
      as (a & b & Ha & Hb & Hsum & _).
    exists a, b. split; [exact Ha|]. split; [exact Hb|exact Hsum].
  - exact demo_start_reachable.
  - exact (proj2 (proj2 (@reward_and_trick_count Z RefRng_Random)) demo_start
             demo_start_reachable).
Defined.

(** ** The further properties on concrete runs *)

Example demo_render :
  (render demo_start).1 =
    Ok ["Hands sizes: [13, 13, 13, 13]";
        "Tricks won: TeamA(0,2)= 0  TeamB(1,3)= 0";
        "10s won:    TeamA(0,2)= 0  TeamB(1,3)= 0";
        "Current trick (leader P0): ";
        "Agent hand: 3C 5C 6C KC 2D 7D 7H 8H 10H QH AH 10S KS"]%string.
Proof. vm_compute. reflexivity. Qed.

(** run_highest.py on the reference generator started at 5: seven tricks
    to six, two tens each, a total reward of 1.0. *)
Example demo_run_highest :
  let r := run_highest_main 13 5 in
  ∃ rep, r.1 = Ok (Some rep)
    ∧ rep_total_reward rep = 1.0%float
    ∧ rep_tricks_won rep !! 0%nat = Some 7 ∧ rep_tricks_won rep !! 1%nat = Some 6
    ∧ rep_tens_won rep !! 0%nat = Some 2 ∧ rep_tens_won rep !! 1%nat = Some 2.
Proof. eexists. vm_compute. by split_and!. Qed.

Lemma demo_new_reachable : reachable demo_new.
Proof. exact (reach_init (Some 7) 0). Qed.

Lemma demo_end_reachable : reachable (run demo_actions demo_start).2.
Proof. exact (run_reachable demo_actions demo_start demo_start_reachable). Qed.

Lemma demo_follow_run :
  _play_card 1 14 demo_follow = (Ok true, (_play_card 1 14 demo_follow).2).
Proof. vm_compute. reflexivity. Qed.

Lemma demo_start_holds_ace : holds demo_start 0 38.
Proof.
  exists [1; 3; 4; 11; 13; 18; 31; 32; 34; 36; 38; 47; 50].
  split; [vm_compute; reflexivity|]. apply (bool_decide_unpack _). vm_compute. exact I.
Qed.

Lemma decode_encode_witness :
  0 ≤ 8 < 13 ∧ 0 ≤ 1 < 4
  ∧ decode_card (encode_card 8 1) = (8, 1) ∧ valid_card (encode_card 8 1).
Proof.
  assert (Hr : 0 ≤ 8 < 13) by lia. assert (Hs : 0 ≤ 1 < 4) by lia.
  split; [exact Hr|]. split; [exact Hs|]. split.
  - exact (proj2 (proj1 (decode_encode 8 1)) Hr).
  - exact (proj2 (decode_encode 8 1) Hr Hs).
Defined.

Lemma card_str_domain_witness :
  -52 ≤ -1 < 0 ∧ is_Some (card_str (-1)) ∧ card_str (-1) = card_str (-1 + 52).
Proof.
  assert (Hc : -52 ≤ -1 < 0) by lia. assert (Hd : -52 ≤ -1 < 52) by lia.
  split; [exact Hc|]. split.
  - exact (proj2 (proj1 (card_str_domain (-1))) Hd).
  - exact (proj2 (card_str_domain (-1)) Hc).
Defined.

Lemma card_str_inj_witness :
  valid_card 21 ∧ valid_card 34 ∧ (card_str 21 = card_str 34 ↔ 21 = 34).
Proof.
  assert (H1 : valid_card 21) by (unfold valid_card; lia).
  assert (H2 : valid_card 34) by (unfold valid_card; lia).
  split; [exact H1|]. split; [exact H2|]. exact (card_str_inj 21 34 H1 H2).
Defined.

Lemma play_card_conserves_witness :
  _play_card 1 14 demo_follow = (Ok true, (_play_card 1 14 demo_follow).2)
  ∧ ∃ h h' c,
      hands demo_follow !! 1%nat = Some h
      ∧ hands (_play_card 1 14 demo_follow).2 = <[1%nat:=h']> (hands demo_follow)
      ∧ h ≡ₚ c :: h'.
Proof.
  split; [exact demo_follow_run|].
  destruct (play_card_conserves demo_follow 1 14 true _ demo_follow_run)
    as (h & h' & t & c & Hh & Hh' & Hperm & _).
  exists h, h', c. split; [exact Hh|]. split; [exact Hh'|exact Hperm].
Defined.

Lemma play_card_failures_witness :
  (hands demo_follow !! 7%nat = None
   ∧ _play_card 7 0 demo_follow = (Raise IndexError, demo_follow))
  ∧ (hands demo_follow !! 1%nat = Some [14; 1; 5] ∧ (99 ∉ [14; 1; 5])
     ∧ _play_card 1 99 demo_follow = (Raise ValueError, demo_follow))
  ∧ (hands demo_no_trick !! 1%nat = Some [14; 1; 5]
     ∧ py_remove 14 [14; 1; 5] = Some [1; 5]
     ∧ current_trick demo_no_trick = None
     ∧ _play_card 1 14 demo_no_trick
       = (Raise AssertionError,
          with_hands (<[1%nat:=[1; 5]]> (hands demo_no_trick)) demo_no_trick)).
Proof.
  assert (Hout : 99 ∉ [14; 1; 5]).
  { apply (bool_decide_unpack _). vm_compute. exact I. }
  split; [|split].
  - split; [reflexivity|].
    exact (proj1 (play_card_failures demo_follow 7 0) eq_refl).
  - split; [reflexivity|]. split; [exact Hout|].
    exact (proj1 (proj2 (play_card_failures demo_follow 1 99)) _ eq_refl Hout).
  - split; [reflexivity|]. split; [reflexivity|]. split; [reflexivity|].
    exact (proj2 (proj2 (play_card_failures demo_no_trick 1 14)) _ _
             eq_refl eq_refl eq_refl).
Defined.

Lemma step_before_reset_witness :
  reachable demo_new ∧ _dealt demo_new = false
  ∧ step 5 demo_new = (Raise InvalidAction, demo_new).
Proof.
  split; [exact demo_new_reachable|]. split; [reflexivity|].
  exact (step_before_reset demo_new 5 demo_new_reachable eq_refl).
Defined.

Lemma end_trick_failures_witness :
  (current_trick demo_new = None
   ∧ _end_trick_and_score demo_new = (Raise AssertionError, demo_new))
  ∧ (current_trick demo_no_trick = None
     ∧ current_trick (with_current_trick (Some fresh_trick) demo_no_trick)
       = Some fresh_trick
     ∧ plays fresh_trick = []
     ∧ _end_trick_and_score (with_current_trick (Some fresh_trick) demo_no_trick)
       = (Raise ValueError, with_current_trick (Some fresh_trick) demo_no_trick)).
Proof.
  split.
  - split; [reflexivity|].
    exact (proj1 (end_trick_failures demo_new) eq_refl).
  - split; [reflexivity|]. split; [reflexivity|]. split; [reflexivity|].
    exact (proj2 (end_trick_failures
                    (with_current_trick (Some fresh_trick) demo_no_trick))
             fresh_trick eq_refl eq_refl).
Defined.

Lemma reachable_cards_witness :
  reachable demo_start
  ∧ length (hands demo_start) = 4%nat
  ∧ NoDup (concat (hands demo_start)).
Proof.
  split; [exact demo_start_reachable|].
  destruct (reachable_cards demo_start demo_start_reachable) as (Hlen & Hnd & _).
  split; [exact Hlen|exact Hnd].
Defined.

Lemma tens_conserved_witness :
  reachable (run demo_actions demo_start).2
  ∧ _dealt (run demo_actions demo_start).2 = true
  ∧ ∃ a b,
      tens_won (run demo_actions demo_start).2 !! 0%nat = Some a
      ∧ tens_won (run demo_actions demo_start).2 !! 1%nat = Some b
      ∧ a + b = 4.
Proof.
  assert (Hdl : _dealt (run demo_actions demo_start).2 = true)
    by (vm_compute; reflexivity).
  assert (Hd : done (run demo_actions demo_start).2 = true)
    by (vm_compute; reflexivity).
  split; [exact demo_end_reachable|]. split; [exact Hdl|].
  destruct (tens_conserved _ demo_end_reachable Hdl) as (a & b & Ha & Hb & _ & Hsum).
  exists a, b. split; [exact Ha|]. split; [exact Hb|exact (Hsum Hd)].
Defined.

Lemma highest_card_wins_witness :
  reachable demo_start ∧ holds demo_start 0 38 ∧ rank_of 38 = 12
  ∧ ∃ res st' n,
      step 38 demo_start = (Ok res, st')
      ∧ res_reward res = 1.0%float
      ∧ tricks_won demo_start !! 0%nat = Some n
      ∧ tricks_won st' = <[0%nat:=n + 1]> (tricks_won demo_start).
Proof.
  assert (Hace : rank_of 38 = 12) by reflexivity.
  split; [exact demo_start_reachable|]. split; [exact demo_start_holds_ace|].
  split; [exact Hace|].
  exact (highest_card_wins demo_start 38 demo_start_reachable demo_start_holds_ace
           (or_introl Hace)).
Defined.

Lemma step_observation_witness :
  reachable demo_start ∧ holds demo_start 0 3
  ∧ ∃ res st' h0',
      step 3 demo_start = (Ok res, st')
      ∧ py_remove 3 [1; 3; 4; 11; 13; 18; 31; 32; 34; 36; 38; 47; 50] = Some h0'
      ∧ obs_hand (res_obs res) = h0'
      ∧ obs_remaining_tricks (res_obs res) = 12%nat
      ∧ res_terminated res = false.
Proof.
  split; [exact demo_start_reachable|]. split; [exact demo_start_holds|].
  destruct (step_observation demo_start 3 demo_start_reachable demo_start_holds)
    as (res & st' & h0 & h0' & x & y & Hstep & Hh0 & Hr & _ & Hobs & Hrem & _ & _
        & _ & _ & _ & _ & _ & _ & _ & Hterm & _).
  assert (Hh : hands demo_start !! 0%nat
               = Some [1; 3; 4; 11; 13; 18; 31; 32; 34; 36; 38; 47; 50])
    by (vm_compute; reflexivity).
  rewrite Hh in Hh0. injection Hh0 as <-.
  assert (Hh0' : h0' = [1; 4; 11; 13; 18; 31; 32; 34; 36; 38; 47; 50]).
  { assert (E : py_remove 3 [1; 3; 4; 11; 13; 18; 31; 32; 34; 36; 38; 47; 50]
                = Some [1; 4; 11; 13; 18; 31; 32; 34; 36; 38; 47; 50])
      by (vm_compute; reflexivity).
    rewrite E in Hr. injection Hr as <-. reflexivity. }
  exists res, st', h0'. split; [exact Hstep|]. split; [exact Hr|].
  split; [exact Hobs|]. rewrite Hrem. rewrite Hh0' in *.
  split; [reflexivity|]. destruct (res_terminated res); [|reflexivity].
  destruct Hterm as [Hterm _]. specialize (Hterm eq_refl). rewrite Hrem in Hterm.
  discriminate Hterm.
Defined.


Lemma enforcer_follow_card_witness :
  current_trick demo_follow = Some (mkTrick 0 [(0%nat, 0)])
  ∧ head (plays (mkTrick 0 [(0%nat, 0)])) = Some (0%nat, 0)
  ∧ _play_card 1 14 demo_follow = (Ok true, (_play_card 1 14 demo_follow).2)
  ∧ ∃ c h,
      hands demo_follow !! 1%nat = Some h
      ∧ c ∈ h
      ∧ suit_of c = suit_of 0
      ∧ ∀ x, x ∈ h → suit_of x = suit_of 0 → rank_of c ≤ rank_of x.
Proof.
  split; [reflexivity|]. split; [reflexivity|]. split; [exact demo_follow_run|].
  destruct (enforcer_follow_card 1 14 demo_follow _ (mkTrick 0 [(0%nat, 0)]) (0%nat, 0)
              eq_refl eq_refl demo_follow_run)
    as (c & h & _ & Hh & Hc & _ & Hsuit & Hmin).
  exists c, h. split; [exact Hh|]. split; [exact Hc|]. split; [exact Hsuit|exact Hmin].
Defined.
